(** * Name generation: structured-output loop and Markdown table

    A shallow embedding of the two programs [02-generate-names/main.go]
    and [03-generate-names/main.go].  Both are a single [main]: read two
    environment variables, build a chat request carrying a JSON schema,
    a message list and decoding options, call the chat endpoint fifteen
    times, decode every answer into a [Character] with [json.Unmarshal],
    and write the collected records as a Markdown table.

    The process environment, the chat endpoint and the file system are
    the [World] the program runs in; everything the program does to
    them is recorded in a trace of [Event]s.  The library functions the
    program calls ([json.Unmarshal], [json.Marshal], [fmt.Sprintf],
    [fmt.Println]) are modelled on byte strings as Go's documentation and
    implementation define them. *)

From Stdlib Require Import Ascii String NArith ZArith List Lia Bool.
From Stdlib Require Import DecimalString.
From stdpp Require Import base option list strings gmap.

Local Open Scope string_scope.
Local Open Scope list_scope.

(** Texts are built and taken apart by computation throughout. *)
#[local] Arguments String.append : simpl nomatch.

(** ** Bytes *)

Module Bytes.

(** Go strings are byte sequences: [string] is a list of 8-bit [ascii]. *)
Definition code (c : ascii) : N := N_of_ascii c.
Definition byte_of (n : N) : ascii := ascii_of_N n.

Definition between (lo hi : N) (c : ascii) : bool :=
  ((lo <=? code c) && (code c <=? hi))%N.

Definition eqb_ascii (a b : ascii) : bool := Ascii.eqb a b.

Definition LF : ascii := byte_of 10.

Definition is_digit (c : ascii) : bool := between 48 57 c.
Definition is_digit19 (c : ascii) : bool := between 49 57 c.

(** Value of a hexadecimal digit, as [getu4] reads it. *)
Definition hex_value (c : ascii) : option N :=
  if between 48 57 c then Some (code c - 48)%N
  else if between 97 102 c then Some (code c - 97 + 10)%N
  else if between 65 70 c then Some (code c - 65 + 10)%N
  else None.

Fixpoint of_list (l : list ascii) : string :=
  match l with
  | [] => EmptyString
  | c :: l' => String c (of_list l')
  end.

Definition of_codes (l : list N) : string := of_list (map byte_of l).

End Bytes.

(** ** UTF-8 and UTF-16, as [unicode/utf8] and [unicode/utf16] *)

Module Utf.

Import Bytes.

(** [unicode.ReplacementChar], U+FFFD. *)
Definition ReplacementChar : N := 65533.

(** [utf8.EncodeRune]: surrogates and values past U+10FFFF are encoded
    as U+FFFD. *)
Definition EncodeRune (r : N) : string :=
  (if r <=? 127 then of_codes [r]
   else if r <=? 2047 then
     of_codes [192 + r / 64; 128 + r mod 64]
   else if ((55296 <=? r) && (r <=? 57343)) || (1114111 <? r) then
     of_codes [239; 191; 189]
   else if r <=? 65535 then
     of_codes [224 + r / 4096; 128 + (r / 64) mod 64; 128 + r mod 64]
   else
     of_codes [240 + r / 262144; 128 + (r / 4096) mod 64;
               128 + (r / 64) mod 64; 128 + r mod 64])%N.

(** [utf16.IsSurrogate]. *)
Definition IsSurrogate (r : N) : bool := ((55296 <=? r) && (r <? 57344))%N.

(** [utf16.DecodeRune]: a high surrogate followed by a low one gives
    the combined code point, anything else U+FFFD. *)
Definition DecodeRune16 (r1 r2 : N) : N :=
  (if (55296 <=? r1) && (r1 <? 56320) && (56320 <=? r2) && (r2 <? 57344)
   then (r1 - 55296) * 1024 + (r2 - 56320) + 65536
   else ReplacementChar)%N.

(** The tables [first] and [acceptRanges] of [utf8.DecodeRune]: the
    length announced by a leading byte and the range its second byte
    must lie in.  [None] for bytes that cannot start a sequence. *)
Definition lead (c : ascii) : option (nat * N * N) :=
  let n := code c in
  (if (194 <=? n) && (n <=? 223) then Some (2%nat, 128, 191)
   else if n =? 224 then Some (3%nat, 160, 191)
   else if (225 <=? n) && (n <=? 236) then Some (3%nat, 128, 191)
   else if n =? 237 then Some (3%nat, 128, 159)
   else if (238 <=? n) && (n <=? 239) then Some (3%nat, 128, 191)
   else if n =? 240 then Some (4%nat, 144, 191)
   else if (241 <=? n) && (n <=? 243) then Some (4%nat, 128, 191)
   else if n =? 244 then Some (4%nat, 128, 143)
   else None)%N.

Definition continuation (c : ascii) : bool := between 128 191 c.

End Utf.

(** ** JSON texts, as [encoding/json] reads them *)

Module Json.

Import Bytes Utf.

#[local] Set Warnings "-register-all".

(** A parsed JSON value.  Object members keep their order and their
    duplicates: the decoder visits them one after the other. *)
Inductive json : Type :=
| JNull
| JBool (b : bool)
| JNumber (literal : string)
| JString (s : string)
| JArray (elements : list json)
| JObject (members : list (string * json)).

(** *** Scanning

    The scanner of [encoding/json] is a state machine fed one byte at
    a time.  Here it is split in two machines with the same accepted
    language: [lex] cuts the text into tokens, [parse_tokens] builds
    the value with an explicit stack.  Both are structural recursions
    over their input, so [parse] is total. *)

(** The content of a string literal before unquoting: raw bytes, and
    the 16-bit values of [\uXXXX] escapes. *)
Inductive strunit : Type :=
| UByte (c : ascii)
| UEsc16 (r : N).

Inductive token : Type :=
| TLBrace | TRBrace | TLBrack | TRBrack | TColon | TComma
| TString (units : list strunit)
| TNumber (literal : string)
| TTrue | TFalse | TNull.

(** The number states of the scanner: [stateNeg], [state0], [state1],
    [stateDot], [stateDot0], [stateE], [stateESign], [stateE0]. *)
Inductive numstate : Type :=
| NumNeg | Num0 | Num1 | NumDot | NumDot0 | NumE | NumESign | NumE0.

Inductive lexstate : Type :=
| LexValue
| LexString (units : list strunit)
| LexStringEsc (units : list strunit)
| LexStringEscU (units : list strunit) (digits : list N)
| LexNumber (ns : numstate) (literal : list ascii)
| LexLiteral (rest : string) (t : token).

(** [isSpace]. *)
Definition isSpace (c : ascii) : bool :=
  let n := code c in ((n =? 32) || (n =? 9) || (n =? 13) || (n =? 10))%N.

Definition is_exp (c : ascii) : bool :=
  ((code c =? 101) || (code c =? 69))%N.

(** A byte at the start of a token. *)
Definition lex_start (c : ascii) (toks : list token)
  : option (lexstate * list token) :=
  if isSpace c then Some (LexValue, toks)
  else if eqb_ascii c "{" then Some (LexValue, TLBrace :: toks)
  else if eqb_ascii c "}" then Some (LexValue, TRBrace :: toks)
  else if eqb_ascii c "[" then Some (LexValue, TLBrack :: toks)
  else if eqb_ascii c "]" then Some (LexValue, TRBrack :: toks)
  else if eqb_ascii c ":" then Some (LexValue, TColon :: toks)
  else if eqb_ascii c "," then Some (LexValue, TComma :: toks)
  else if (code c =? 34)%N then Some (LexString [], toks)
  else if eqb_ascii c "-" then Some (LexNumber NumNeg [c], toks)
  else if eqb_ascii c "0" then Some (LexNumber Num0 [c], toks)
  else if is_digit19 c then Some (LexNumber Num1 [c], toks)
  else if eqb_ascii c "t" then Some (LexLiteral "rue" TTrue, toks)
  else if eqb_ascii c "f" then Some (LexLiteral "alse" TFalse, toks)
  else if eqb_ascii c "n" then Some (LexLiteral "ull" TNull, toks)
  else None.

(** A byte inside a number: the next number state, or [None] when the
    byte does not continue the number. *)
Definition num_step (ns : numstate) (c : ascii) : option numstate :=
  match ns with
  | NumNeg =>
      if eqb_ascii c "0" then Some Num0
      else if is_digit19 c then Some Num1 else None
  | Num0 =>
      if eqb_ascii c "." then Some NumDot
      else if is_exp c then Some NumE else None
  | Num1 =>
      if is_digit c then Some Num1
      else if eqb_ascii c "." then Some NumDot
      else if is_exp c then Some NumE else None
  | NumDot => if is_digit c then Some NumDot0 else None
  | NumDot0 =>
      if is_digit c then Some NumDot0
      else if is_exp c then Some NumE else None
  | NumE =>
      if eqb_ascii c "+" || eqb_ascii c "-" then Some NumESign
      else if is_digit c then Some NumE0 else None
  | NumESign => if is_digit c then Some NumE0 else None
  | NumE0 => if is_digit c then Some NumE0 else None
  end.

(** The states in which a number may end. *)
Definition num_final (ns : numstate) : bool :=
  match ns with
  | Num0 | Num1 | NumDot0 | NumE0 => true
  | _ => false
  end.

(** The byte an escape letter stands for ([stateInStringEsc] accepts
    exactly these and [u]). *)
Definition escape_byte (c : ascii) : option ascii :=
  if (code c =? 34)%N then Some c
  else if (code c =? 92)%N then Some c
  else if eqb_ascii c "/" then Some c
  else if eqb_ascii c "b" then Some (byte_of 8)
  else if eqb_ascii c "f" then Some (byte_of 12)
  else if eqb_ascii c "n" then Some (byte_of 10)
  else if eqb_ascii c "r" then Some (byte_of 13)
  else if eqb_ascii c "t" then Some (byte_of 9)
  else None.

Definition u4 (digits : list N) : N :=
  fold_left (fun acc d => acc * 16 + d)%N digits 0%N.

Definition lex_step (st : lexstate) (toks : list token) (c : ascii)
  : option (lexstate * list token) :=
  match st with
  | LexValue => lex_start c toks
  | LexString us =>
      if (code c =? 34)%N then Some (LexValue, TString (rev us) :: toks)
      else if (code c =? 92)%N then Some (LexStringEsc us, toks)
      else if (code c <? 32)%N then None
      else Some (LexString (UByte c :: us), toks)
  | LexStringEsc us =>
      if eqb_ascii c "u" then Some (LexStringEscU us [], toks)
      else match escape_byte c with
           | Some b => Some (LexString (UByte b :: us), toks)
           | None => None
           end
  | LexStringEscU us ds =>
      match hex_value c with
      | Some d =>
          let ds' := ds ++ [d] in
          if (length ds' =? 4)%nat
          then Some (LexString (UEsc16 (u4 ds') :: us), toks)
          else Some (LexStringEscU us ds', toks)
      | None => None
      end
  | LexNumber ns lit =>
      match num_step ns c with
      | Some ns' => Some (LexNumber ns' (c :: lit), toks)
      | None =>
          if num_final ns
          then lex_start c (TNumber (of_list (rev lit)) :: toks)
          else None
      end
  | LexLiteral rest t =>
      match rest with
      | String e rest' =>
          if eqb_ascii c e then
            match rest' with
            | EmptyString => Some (LexValue, t :: toks)
            | _ => Some (LexLiteral rest' t, toks)
            end
          else None
      | EmptyString => None
      end
  end.

(** At the end of the input only a finished token or a number in a
    final state is accepted ([scanner.eof]). *)
Definition lex_eof (st : lexstate) (toks : list token)
  : option (list token) :=
  match st with
  | LexValue => Some (rev toks)
  | LexNumber ns lit =>
      if num_final ns
      then Some (rev (TNumber (of_list (rev lit)) :: toks))
      else None
  | _ => None
  end.

Fixpoint lex_from (st : lexstate) (toks : list token) (s : string)
  : option (list token) :=
  match s with
  | EmptyString => lex_eof st toks
  | String c s' =>
      match lex_step st toks c with
      | Some (st', toks') => lex_from st' toks' s'
      | None => None
      end
  end.

Definition lex (s : string) : option (list token) := lex_from LexValue [] s.

(** *** Unquoting, as [unquoteBytes]

    Escapes are replaced by the bytes they stand for, a surrogate pair
    of [\u] escapes by the code point it encodes, a lone surrogate by
    U+FFFD, and every byte that is not part of a well-formed UTF-8
    sequence by U+FFFD. *)
Definition FFFD : string := EncodeRune ReplacementChar.

Definition second_ok (c0 c1 : ascii) : bool :=
  match lead c0 with
  | Some (_, lo, hi) => between lo hi c1
  | None => false
  end.

Definition lead_len (c0 : ascii) : nat :=
  match lead c0 with
  | Some (n, _, _) => n
  | None => 0
  end.

Fixpoint unquote (us : list strunit) : string :=
  match us with
  | [] => EmptyString
  | UEsc16 r :: rest =>
      if IsSurrogate r then
        match rest with
        | UEsc16 r1 :: rest1 =>
            if (DecodeRune16 r r1 =? ReplacementChar)%N
            then FFFD +:+ unquote rest
            else EncodeRune (DecodeRune16 r r1) +:+ unquote rest1
        | _ => FFFD +:+ unquote rest
        end
      else EncodeRune r +:+ unquote rest
  | UByte c0 :: rest =>
      if (code c0 <? 128)%N then String c0 (unquote rest)
      else
        match rest with
        | UByte c1 :: rest1 =>
            if second_ok c0 c1 then
              if (lead_len c0 =? 2)%nat
              then String c0 (String c1 (unquote rest1))
              else
                match rest1 with
                | UByte c2 :: rest2 =>
                    if continuation c2 then
                      if (lead_len c0 =? 3)%nat
                      then String c0 (String c1 (String c2 (unquote rest2)))
                      else
                        match rest2 with
                        | UByte c3 :: rest3 =>
                            if continuation c3
                            then String c0 (String c1 (String c2
                                   (String c3 (unquote rest3))))
                            else FFFD +:+ unquote rest
                        | _ => FFFD +:+ unquote rest
                        end
                    else FFFD +:+ unquote rest
                | _ => FFFD +:+ unquote rest
                end
            else FFFD +:+ unquote rest
        | _ => FFFD +:+ unquote rest
        end
  end.

(** *** Building the value *)

Inductive frame : Type :=
| FArray (elements : list json)
| FObject (members : list (string * json)) (key : option string).

(** The scanner states between tokens: [stateBeginValue],
    [stateBeginValueOrEmpty], [stateBeginStringOrEmpty],
    [stateBeginString], [stateEndValue] (after a key, and after a
    value), [stateEndTop]. *)
Inductive pstate : Type :=
| BeginValue
| BeginValueOrEmpty
| BeginStringOrEmpty
| BeginString
| EndKey
| EndValue
| EndTop (v : json).

(** [maxNestingDepth]. *)
Definition maxNestingDepth : N := 10000.

(** A finished value goes to the innermost open container. *)
Definition close_value (v : json) (stack : list frame)
  : option (pstate * list frame) :=
  match stack with
  | [] => Some (EndTop v, [])
  | FArray es :: st => Some (EndValue, FArray (v :: es) :: st)
  | FObject ms (Some k) :: st =>
      Some (EndValue, FObject ((k, v) :: ms) None :: st)
  | FObject _ None :: _ => None
  end.

Definition open_frame (f : frame) (ps : pstate) (stack : list frame)
  : option (pstate * list frame) :=
  if (N.of_nat (length (f :: stack)) <=? maxNestingDepth)%N
  then Some (ps, f :: stack) else None.

Definition begin_value (t : token) (stack : list frame)
  : option (pstate * list frame) :=
  match t with
  | TLBrace => open_frame (FObject [] None) BeginStringOrEmpty stack
  | TLBrack => open_frame (FArray []) BeginValueOrEmpty stack
  | TString us => close_value (JString (unquote us)) stack
  | TNumber lit => close_value (JNumber lit) stack
  | TTrue => close_value (JBool true) stack
  | TFalse => close_value (JBool false) stack
  | TNull => close_value JNull stack
  | _ => None
  end.

Definition begin_key (t : token) (stack : list frame)
  : option (pstate * list frame) :=
  match t, stack with
  | TString us, FObject ms None :: st =>
      Some (EndKey, FObject ms (Some (unquote us)) :: st)
  | _, _ => None
  end.

Definition parse_step (ps : pstate) (stack : list frame) (t : token)
  : option (pstate * list frame) :=
  match ps with
  | BeginValue => begin_value t stack
  | BeginValueOrEmpty =>
      match t, stack with
      | TRBrack, FArray es :: st => close_value (JArray (rev es)) st
      | _, _ => begin_value t stack
      end
  | BeginStringOrEmpty =>
      match t, stack with
      | TRBrace, FObject ms None :: st => close_value (JObject (rev ms)) st
      | _, _ => begin_key t stack
      end
  | BeginString => begin_key t stack
  | EndKey =>
      match t with
      | TColon => Some (BeginValue, stack)
      | _ => None
      end
  | EndValue =>
      match t, stack with
      | TComma, FArray _ :: _ => Some (BeginValue, stack)
      | TRBrack, FArray es :: st => close_value (JArray (rev es)) st
      | TComma, FObject _ None :: _ => Some (BeginString, stack)
      | TRBrace, FObject ms None :: st => close_value (JObject (rev ms)) st
      | _, _ => None
      end
  | EndTop _ => None
  end.

Fixpoint parse_from (ps : pstate) (stack : list frame) (ts : list token)
  : option json :=
  match ts with
  | [] => match ps with EndTop v => Some v | _ => None end
  | t :: ts' =>
      match parse_step ps stack t with
      | Some (ps', stack') => parse_from ps' stack' ts'
      | None => None
      end
  end.

Definition parse_tokens (ts : list token) : option json :=
  parse_from BeginValue [] ts.

(** [checkValid] followed by the decoder's walk over the text: [None]
    is a [SyntaxError]. *)
Definition parse (s : string) : option json :=
  match lex s with
  | Some ts => parse_tokens ts
  | None => None
  end.

End Json.

(** ** Decoding into the program's record, as [json.Unmarshal] *)

Module GoJson.

Import Bytes Json.

(** [type Character struct] of both programs. *)
Record Character : Type := { Name : string; Kind : string }.

(** The two fields, with the JSON names of their tags. *)
Inductive field : Type := FieldName | FieldKind.

Definition json_name (f : field) : string :=
  match f with
  | FieldName => "name"
  | FieldKind => "kind"
  end.

(** The errors [json.Unmarshal] returns here: [*json.SyntaxError], and
    [*json.UnmarshalTypeError] with the JSON value it met and the
    field it was decoding, if any. *)
Inductive json_error : Type :=
| SyntaxError
| UnmarshalTypeError (value : string) (f : option field).

Definition upper (c : ascii) : ascii :=
  if between 97 122 c then byte_of (code c - 32) else c.

(** [foldName]: ASCII letters go to upper case and every other rune to
    the smallest rune of its simple case-folding orbit.  Two runes
    outside ASCII have an ASCII letter in their orbit: U+017F (long s,
    bytes C5 BF) folds to [S] and U+212A (Kelvin sign, bytes E2 84 AA)
    to [K].  All others fold to runes outside ASCII; their bytes are
    left as they are, which changes nothing to a comparison with the
    folded names of the fields, both ASCII. *)
Fixpoint foldName (key : string) : string :=
  match key with
  | EmptyString => EmptyString
  | String c rest =>
      if (code c <? 128)%N then String (upper c) (foldName rest)
      else
        match rest with
        | String c1 rest1 =>
            if ((code c =? 197) && (code c1 =? 191))%N
            then String "S" (foldName rest1)
            else
              match rest1 with
              | String c2 rest2 =>
                  if ((code c =? 226) && (code c1 =? 132)
                      && (code c2 =? 170))%N
                  then String "K" (foldName rest2)
                  else String c (foldName rest)
              | EmptyString => String c (foldName rest)
              end
        | EmptyString => String c (foldName rest)
        end
  end.

(** The field a member key selects: an exact match, else a match of
    the folded names ([byExactName], then [byFoldedName]). *)
Definition field_of_key (key : string) : option field :=
  if String.eqb key (json_name FieldName) then Some FieldName
  else if String.eqb key (json_name FieldKind) then Some FieldKind
  else if String.eqb (foldName key) (foldName (json_name FieldName))
  then Some FieldName
  else if String.eqb (foldName key) (foldName (json_name FieldKind))
  then Some FieldKind
  else None.

Definition set_field (f : field) (s : string) (c : Character) : Character :=
  match f with
  | FieldName => {| Name := s; Kind := Kind c |}
  | FieldKind => {| Name := Name c; Kind := s |}
  end.

Definition get_field (f : field) (c : Character) : string :=
  match f with
  | FieldName => Name c
  | FieldKind => Kind c
  end.

(** How the decoder describes a value that does not fit. *)
Definition value_kind (v : json) : string :=
  match v with
  | JNull => "null"
  | JBool _ => "bool"
  | JNumber _ => "number"
  | JString _ => "string"
  | JArray _ => "array"
  | JObject _ => "object"
  end.

(** A value met for a [string] field: a string is stored, [null]
    leaves the field as it is, anything else is a type error. *)
Definition store_field (f : field) (v : json) (c : Character)
  : Character * option json_error :=
  match v with
  | JString s => (set_field f s c, None)
  | JNull => (c, None)
  | _ => (c, Some (UnmarshalTypeError (value_kind v) (Some f)))
  end.

(** [saveError]: the first error is the one reported; decoding goes
    on after it. *)
Definition saveError (saved new : option json_error) : option json_error :=
  match saved with
  | Some e => Some e
  | None => new
  end.

(** The members of an object, in order; keys that select no field are
    skipped. *)
Fixpoint decode_members (ms : list (string * json)) (c : Character)
    (saved : option json_error) : Character * option json_error :=
  match ms with
  | [] => (c, saved)
  | (k, v) :: ms' =>
      match field_of_key k with
      | Some f =>
          let '(c', e) := store_field f v c in
          decode_members ms' c' (saveError saved e)
      | None => decode_members ms' c saved
      end
  end.

(** A value met for the struct itself: an object is decoded member by
    member, [null] has no effect, anything else is a type error. *)
Definition decode_value (v : json) (c : Character)
  : Character * option json_error :=
  match v with
  | JObject ms => decode_members ms c None
  | JNull => (c, None)
  | _ => (c, Some (UnmarshalTypeError (value_kind v) None))
  end.

(** [json.Unmarshal(data, &character)]: the record after the call and
    the error returned. *)
Definition Unmarshal (data : string) (c : Character)
  : Character * option json_error :=
  match parse data with
  | Some v => decode_value v c
  | None => (c, Some SyntaxError)
  end.

End GoJson.

(** ** Encoding the schema, as [json.Marshal] *)

Module GoMarshal.

Import Bytes Json.

#[local] Set Warnings "-register-all".

(** The Go values the programs marshal: strings, [[]string], and
    [map[string]any] given by its entries. *)
Inductive govalue : Type :=
| GoString (s : string)
| GoStrings (l : list string)
| GoMap (entries : list (string * govalue)).

Definition quote : string := of_codes [34%N].

(** The bytes [json.Marshal] copies unchanged into a string literal
    ([htmlSafeSet]): ASCII from the space on, without the double
    quote, the backslash, [<], [>] and [&]. *)
Definition htmlSafe (c : ascii) : bool :=
  let n := code c in
  ((32 <=? n) && (n <=? 127)
   && negb ((n =? 34) || (n =? 92) || (n =? 60) || (n =? 62) || (n =? 38)))%N.

Fixpoint all_safe (s : string) : bool :=
  match s with
  | EmptyString => true
  | String c s' => htmlSafe c && all_safe s'
  end.

(** A string literal.  The programs only marshal strings made of safe
    bytes; the escapes [json.Marshal] writes for the other bytes are
    not modelled, and such a string has no encoding here. *)
Definition encode_string (s : string) : option string :=
  if all_safe s then Some (quote +:+ s +:+ quote) else None.

Fixpoint join (sep : string) (l : list string) : string :=
  match l with
  | [] => EmptyString
  | [x] => x
  | x :: l' => x +:+ sep +:+ join sep l'
  end.

Fixpoint encode_strings (l : list string) : option (list string) :=
  match l with
  | [] => Some []
  | s :: l' =>
      match encode_string s, encode_strings l' with
      | Some e, Some r => Some (e :: r)
      | _, _ => None
      end
  end.

(** Map entries are written in the order of their keys, compared as
    byte strings. *)
Fixpoint insert_entry {A} (e : string * A) (l : list (string * A))
  : list (string * A) :=
  match l with
  | [] => [e]
  | e' :: l' =>
      if String.leb (fst e) (fst e') then e :: l
      else e' :: insert_entry e l'
  end.

Definition sort_entries {A} (l : list (string * A)) : list (string * A) :=
  fold_right insert_entry [] l.

Definition encode_entry (e : string * string) : option string :=
  match encode_string (fst e) with
  | Some k => Some (k +:+ ":" +:+ snd e)
  | None => None
  end.

Fixpoint encode_entries (l : list (string * string)) : option (list string) :=
  match l with
  | [] => Some []
  | e :: l' =>
      match encode_entry e, encode_entries l' with
      | Some x, Some r => Some (x :: r)
      | _, _ => None
      end
  end.

Fixpoint Marshal (v : govalue) : option string :=
  match v with
  | GoString s => encode_string s
  | GoStrings l =>
      match encode_strings l with
      | Some es => Some ("[" +:+ join "," es +:+ "]")
      | None => None
      end
  | GoMap entries =>
      let fix values (es : list (string * govalue))
        : option (list (string * string)) :=
        match es with
        | [] => Some []
        | (k, x) :: es' =>
            match Marshal x, values es' with
            | Some e, Some r => Some ((k, e) :: r)
            | _, _ => None
            end
        end in
      match values entries with
      | Some kvs =>
          match encode_entries (sort_entries kvs) with
          | Some parts => Some ("{" +:+ join "," parts +:+ "}")
          | None => None
          end
      | None => None
      end
  end.

(** The JSON document a Go value stands for. *)
Fixpoint json_of (v : govalue) : json :=
  match v with
  | GoString s => JString s
  | GoStrings l => JArray (map JString l)
  | GoMap entries =>
      JObject ((fix members (es : list (string * govalue)) :=
                  match es with
                  | [] => []
                  | (k, x) :: es' => (k, json_of x) :: members es'
                  end) entries)
  end.

(** Two documents are structurally equal when they agree up to the
    order of object members: [normalize] sorts the members of every
    object by key. *)
Fixpoint normalize (v : json) : json :=
  match v with
  | JArray es => JArray (map normalize es)
  | JObject ms =>
      JObject (sort_entries
                 ((fix members (l : list (string * json)) :=
                     match l with
                     | [] => []
                     | (k, x) :: l' => (k, normalize x) :: members l'
                     end) ms))
  | _ => v
  end.

Definition json_equal (a b : json) : Prop := normalize a = normalize b.

End GoMarshal.

(** ** Formatting, as [fmt] *)

Module GoFmt.

Import Bytes.

Inductive operand : Type :=
| ArgInt (n : Z)
| ArgString (s : string).

(** [%d] of an [int]: decimal digits, with a minus sign for negative
    numbers. *)
Definition decimal (n : Z) : string := NilZero.string_of_int (Z.to_int n).

(** [fmt.Sprintf] for the verbs the programs use: [%d] with an [int]
    and [%s] with a [string], each consuming one operand; every other
    byte of the format is copied.  Other verbs, flags, and operands
    that are missing, left over or of the wrong type are outside this
    fragment: [None]. *)
Fixpoint Sprintf (format : string) (a : list operand) : option string :=
  match format with
  | EmptyString =>
      match a with
      | [] => Some EmptyString
      | _ :: _ => None
      end
  | String c rest =>
      if eqb_ascii c "%" then
        match rest with
        | String v rest' =>
            match a with
            | ArgInt n :: a' =>
                if eqb_ascii v "d"
                then option_map (String.append (decimal n)) (Sprintf rest' a')
                else None
            | ArgString s :: a' =>
                if eqb_ascii v "s"
                then option_map (String.append s) (Sprintf rest' a')
                else None
            | [] => None
            end
        | EmptyString => None
        end
      else option_map (String c) (Sprintf rest a)
  end.

(** [fmt.Println] of strings: the operands separated by spaces, then a
    newline. *)
Definition Sprintln (a : list string) : string :=
  GoMarshal.join " " a +:+ String LF EmptyString.

End GoFmt.

(** ** The client library, as [github.com/ollama/ollama/api] *)

Module api.

(** [api.Message]. *)
Record Message : Type := { Role : string; Content : string }.

(** A value of the [Options] map.  The programs put untyped constants
    there: an integer constant becomes an [int]; a floating-point
    constant becomes the [float64] nearest to the decimal written in
    the source, which is kept here as that decimal,
    [digits * 10 ^ (- scale)].  The values are only carried, never
    computed with. *)
Inductive OptionValue : Type :=
| OptInt (n : Z)
| OptFloat (digits : Z) (scale : nat).

(** [api.ChatRequest], with the fields the programs set.  [Format] is
    a [json.RawMessage]: the bytes of a JSON text.  [Stream] is a
    [*bool]. *)
Record ChatRequest : Type := {
  Model : string;
  Messages : list Message;
  Options : gmap string OptionValue;
  Format : string;
  Stream : option bool
}.

(** [api.ChatResponse], with the field the programs read
    ([resp.Message]). *)
Record ChatResponse : Type := { Msg : Message }.

End api.

(** ** The world the program runs in, and its effects *)

Module Proc.

Import GoJson api.

(** Go [error] values met by the programs: those of [encoding/json],
    and those of the client library and of the operating system,
    known by their message only. *)
Inductive error : Type :=
| JsonError (e : json_error)
| MarshalError
| ExternalError (msg : string).

(** What the program does not control: the environment variables, the
    outcome of [api.ClientFromEnvironment], the endpoint behind
    [client.Chat] and the file system behind [os.WriteFile].  The
    endpoint answers the [n]-th call ([n] counted from 0) with the
    responses handed to the callback, in order, and the error that
    [Chat] returns. *)
Record World : Type := {
  environ : gmap string string;
  client_error : option string;
  chat : nat -> ChatRequest -> list ChatResponse * option string;
  write_file : string -> string -> N -> option string
}.

(** What the program does to the world, in order. *)
Inductive Event : Type :=
| EvStdout (text : string)
| EvChat (req : ChatRequest)
| EvWriteFile (name data : string) (perm : N)
| EvFatal (e : error).

(** A computation either returns, or ends the process with an exit
    code ([log.Fatal] prints and calls [os.Exit(1)]), or leaves the
    modelled fragment of a library ([Stuck]). *)
Inductive Outcome (A : Type) : Type :=
| Done (a : A)
| Exited (code : Z)
| Stuck.
Arguments Done {A} a.
Arguments Exited {A} code.
Arguments Stuck {A}.

Definition IO (A : Type) : Type :=
  World -> list Event -> Outcome A * list Event.

Definition ret {A} (a : A) : IO A := fun _ tr => (Done a, tr).

Definition bind {A B} (m : IO A) (k : A -> IO B) : IO B :=
  fun w tr =>
    match m w tr with
    | (Done a, tr') => k a w tr'
    | (Exited c, tr') => (Exited c, tr')
    | (Stuck, tr') => (Stuck, tr')
    end.

Declare Scope io_scope.
Delimit Scope io_scope with io.
Notation "x <- m ;; k" := (bind m (fun x => k))
  (at level 100, m at next level, right associativity) : io_scope.
Notation "m ;;; k" := (bind m (fun _ => k))
  (at level 100, right associativity) : io_scope.

Definition emit (e : Event) : IO unit := fun _ tr => (Done tt, tr ++ [e]).

(** [os.Getenv]: the value of the variable, empty when it is not set. *)
Definition Getenv (key : string) : IO string :=
  fun w tr => (Done (default EmptyString (environ w !! key)), tr).

(** [fmt.Println]. *)
Definition Println (a : list string) : IO unit :=
  emit (EvStdout (GoFmt.Sprintln a)).

(** [log.Fatal]: the message, then [os.Exit(1)]. *)
Definition Fatal {A} (e : error) : IO A :=
  fun _ tr => (Exited 1%Z, tr ++ [EvFatal e]).

(** [api.ClientFromEnvironment]: the error it returns, if any. *)
Definition ClientFromEnvironment : IO (option error) :=
  fun w tr => (Done (option_map ExternalError (client_error w)), tr).

Definition is_chat (e : Event) : bool :=
  match e with
  | EvChat _ => true
  | _ => false
  end.

(** The number of calls made to the endpoint so far. *)
Definition chat_calls (tr : list Event) : nat := length (filter is_chat tr).

(** [client.Chat(ctx, req, fn)]: the request goes out, and the caller
    gets the responses its callback is run on, and the error. *)
Definition Chat (req : ChatRequest)
  : IO (list ChatResponse * option error) :=
  fun w tr =>
    let '(resps, err) := chat w (chat_calls tr) req in
    (Done (resps, option_map ExternalError err), tr ++ [EvChat req]).

(** [os.WriteFile]. *)
Definition WriteFile (name data : string) (perm : N) : IO (option error) :=
  fun w tr =>
    (Done (option_map ExternalError (write_file w name data perm)),
     tr ++ [EvWriteFile name data perm]).

(** A library result outside the modelled fragment stops the model. *)
Definition modelled {A} (o : option A) : IO A :=
  match o with
  | Some a => ret a
  | None => fun _ tr => (Stuck, tr)
  end.

End Proc.

(** ** The programs *)

Module Main.

Import Bytes GoJson GoMarshal GoFmt api Proc.
Local Open Scope io_scope.

(** The two programs differ in one line: the second system message of
    [03-generate-names]. *)
Inductive Profile : Type := Minimal | Guided.

Definition systemInstructions : string :=
  "You are an expert NPC generator for games like D&D. 
	You have freedom to be creative to get the best possible output.
	".

Definition generationInstructions : string :=
  "
	## Suggested Generation Rules

	For generating consistent names, here are some guidelines:

	### Dwarves
	- Favor hard consonants (k, t, d, g)
	- Use short, punchy sounds
	- Incorporate references to metals, stones, forging
	- Clan names often hyphenated or compound words
	- Common suffixes: -in, -or, -ar, -im

	### Elves
	- Favor fluid consonants (l, n, r)
	- Use many vowels
	- Incorporate nature and star references
	- Names typically long and melodious
	- Common prefixes: El-, Cel-, Gal-
	- Common suffixes: -il, -iel, -or, -ion

	### Humans
	- Greater variety of sounds
	- Mix of short and long names
	- Can borrow elements from other races
	- Family names often descriptive or location-based
	- Common suffixes: -or, -wyn, -iel
	- Common prefixes: Theo-, El-, Ar-	

	## Usage Notes
	Names can be modified or combined to create new variations while maintaining the essence of each race.

	### Pattern Examples
	- Dwarf: [Hard Consonant] + [Short Vowel] + [Hard Consonant] + [Suffix]
	- Elf: [Nature Word] + [Fluid Consonant] + [Long Vowel] + [Melodic Ending]
	- Human: [Strong Consonant] + [Vowel] + [Cultural Suffix]

	### Cultural Considerations
	- Dwarf names often reflect their crafts or achievements
	- Elf names might change throughout their long lives
	- Human names vary by region and social status
	".

(** The schema of the structured output. *)
Definition schema : govalue :=
  GoMap [
    ("type", GoString "object");
    ("properties", GoMap [
       ("name", GoMap [("type", GoString "string")]);
       ("kind", GoMap [("type", GoString "string")])
     ]);
    ("required", GoStrings ["name"; "kind"])
  ].

Definition userContent_format : string :=
  "Generate a random name for an %s (kind always equals %s).".

Definition messages (p : Profile) (userContent : string) : list Message :=
  match p with
  | Minimal =>
      [ {| Role := "system"; Content := systemInstructions |};
        {| Role := "user"; Content := userContent |} ]
  | Guided =>
      [ {| Role := "system"; Content := systemInstructions |};
        {| Role := "system"; Content := generationInstructions |};
        {| Role := "user"; Content := userContent |} ]
  end.

Definition options : gmap string OptionValue :=
  <[ "temperature" := OptFloat 17 1 ]>
  (<[ "repeat_last_n" := OptInt 2 ]>
  (<[ "repeat_penalty" := OptFloat 22 1 ]>
  (<[ "top_k" := OptInt 10 ]>
  (<[ "top_p" := OptFloat 9 1 ]> ∅)))).

Definition noStream : bool := false.

Definition request (model : string) (msgs : list Message)
    (jsonModel : string) : ChatRequest :=
  {| Model := model;
     Messages := msgs;
     Options := options;
     Format := jsonModel;
     Stream := Some noStream |}.

(** [generateName]: [respFunc] overwrites [jsonResult] with the
    content of every response it is called on. *)
Definition generateName (req : ChatRequest) : IO (string * option error) :=
  let jsonResult := EmptyString in
  r <- Chat req ;;
  let '(resps, err) := r in
  let jsonResult :=
    fold_left (fun _ resp => Content (Msg resp)) resps jsonResult in
  ret (jsonResult, err).

(** One turn of the loop [for i := 0; i < 15; i++]. *)
Definition iteration (req : ChatRequest) : IO Character :=
  r <- generateName req ;;
  let '(jsonStr, err) := r in
  match err with
  | Some e => Fatal e
  | None =>
      let character := {| Name := EmptyString; Kind := EmptyString |} in
      let '(character, err) := Unmarshal jsonStr character in
      match err with
      | Some e => Fatal (JsonError e)
      | None =>
          Println [Name character; Kind character] ;;;
          ret character
      end
  end.

(** The loop, with [n] turns left. *)
Fixpoint generate (n : nat) (req : ChatRequest)
    (characters : list Character) : IO (list Character) :=
  match n with
  | O => ret characters
  | S n' =>
      character <- iteration req ;;
      generate n' req (characters ++ [character])
  end.

Definition batch_size : nat := 15.

Definition table_header : string :=
  "| Index | Name     | Kind       |
".

Definition table_separator : string :=
  "|------|----------|------------|
".

Definition row_format : string :=
  "| %d   | %s      | %s       |
".

(** [for idx, character := range characters]. *)
Fixpoint add_rows (idx : Z) (characters : list Character)
    (markdownTable : string) : option string :=
  match characters with
  | [] => Some markdownTable
  | character :: rest =>
      match Sprintf row_format
              [ArgInt (idx + 1); ArgString (Name character);
               ArgString (Kind character)] with
      | Some row => add_rows (idx + 1) rest (markdownTable +:+ row)
      | None => None
      end
  end.

Definition markdown_table (characters : list Character) : option string :=
  let markdownTable := table_header in
  let markdownTable := markdownTable +:+ table_separator in
  add_rows 0 characters markdownTable.

Definition file_name (kind : string) : string :=
  "./characters." +:+ kind +:+ ".md".

(** A permission written in octal, as [0644] is. *)
Definition octal (digits : list N) : N :=
  fold_left (fun acc d => acc * 8 + d)%N digits 0%N.

(** [main], for a profile and a selected kind. *)
Definition main_of (p : Profile) (kind : string) : IO unit :=
  ollamaUrl <- Getenv "OLLAMA_HOST" ;;
  model <- Getenv "LLM" ;;
  Println ["🌍"; ollamaUrl; "📕"; model] ;;;
  err <- ClientFromEnvironment ;;
  match err with
  | Some e => Fatal e
  | None =>
      jsonModel <- match Marshal schema with
                   | Some j => ret j
                   | None => Fatal MarshalError
                   end ;;
      userContent <-
        modelled (Sprintf userContent_format
                    [ArgString kind; ArgString kind]) ;;
      let req := request model (messages p userContent) jsonModel in
      characters <- generate batch_size req [] ;;
      markdownTable <- modelled (markdown_table characters) ;;
      err <- WriteFile (file_name kind) markdownTable (octal [6; 4; 4]%N) ;;
      match err with
      | Some e => Fatal e
      | None => ret tt
      end
  end.

(** The kind selected in both programs. *)
Definition kind : string := "Dwarf".

(** [02-generate-names/main.go] and [03-generate-names/main.go]. *)
Definition main02 : IO unit := main_of Minimal kind.
Definition main03 : IO unit := main_of Guided kind.

(** A run from the start of the process: the outcome and the trace. *)
Definition run (m : IO unit) (w : World) : Outcome unit * list Event :=
  m w [].

End Main.

(** ** Lines of a text *)

Module Text.

Import Bytes.

Definition is_LF (c : ascii) : bool := eqb_ascii c LF.

(** The number of newline bytes. *)
Fixpoint newlines (s : string) : nat :=
  match s with
  | EmptyString => 0
  | String c s' => (if is_LF c then 1 else 0) + newlines s'
  end.

(** The lines of a text: the segments ended by a newline, and the
    segment after the last newline when it is not empty. *)
Fixpoint lines (s : string) : list string :=
  match s with
  | EmptyString => []
  | String c s' =>
      if is_LF c then EmptyString :: lines s'
      else
        match lines s' with
        | [] => [String c EmptyString]
        | l :: ls => String c l :: ls
        end
  end.

Definition nl : string := String LF EmptyString.

End Text.

(** ** The table, in closed form *)

Module Table.

Import Bytes GoJson GoFmt Text Main.

(** A data row as the specification writes it: the index, the name
    and the kind between the fixed separators, without the newline
    that ends it. *)
Definition data_row (index : Z) (name kind : string) : string :=
  "| " +:+ decimal index +:+ "   | " +:+ name +:+ "      | " +:+ kind
  +:+ "       |".
#[global] Arguments data_row : simpl never.

Definition header_line : string := "| Index | Name     | Kind       |".
Definition separator_line : string := "|------|----------|------------|".

(** The rows of the records that follow index [idx], each ended by a
    newline. *)
Fixpoint rows_text (idx : Z) (characters : list Character) : string :=
  match characters with
  | [] => EmptyString
  | c :: rest =>
      data_row (idx + 1) (Name c) (Kind c)
      +:+ String LF (rows_text (idx + 1) rest)
  end.

Fixpoint row_lines (idx : Z) (characters : list Character) : list string :=
  match characters with
  | [] => []
  | c :: rest =>
      data_row (idx + 1) (Name c) (Kind c) :: row_lines (idx + 1) rest
  end.

Definition table_text (characters : list Character) : string :=
  header_line
  +:+ String LF (separator_line +:+ String LF (rows_text 0 characters)).

(** The newlines that the fields of a batch contain. *)
Fixpoint field_newlines (characters : list Character) : nat :=
  match characters with
  | [] => 0
  | c :: rest => newlines (Name c) + newlines (Kind c) + field_newlines rest
  end.

End Table.

(** ** A run, in closed form *)

Module Run.

Import Bytes Json GoJson GoMarshal GoFmt api Proc Main Table.

(** [Character{}]. *)
Definition zero : Character := {| Name := EmptyString; Kind := EmptyString |}.

(** The text [generateName] returns: the content of the last response
    the callback saw, empty when it saw none. *)
Definition jsonResult (resps : list ChatResponse) : string :=
  fold_left (fun _ resp => Content (Msg resp)) resps EmptyString.

(** What the [i]-th call to the endpoint leads to: a record, or the
    error the turn dies of. *)
Definition answer (w : World) (req : ChatRequest) (i : nat)
  : error + Character :=
  let '(resps, err) := chat w i req in
  match err with
  | Some m => inl (ExternalError m)
  | None =>
      match Unmarshal (jsonResult resps) zero with
      | (c, None) => inr c
      | (_, Some e) => inl (JsonError e)
      end
  end.

Definition turn_events (req : ChatRequest) (c : Character) : list Event :=
  [EvChat req; EvStdout (Sprintln [Name c; Kind c])].

(** [n] turns from call [i] on: the records of the turns before the
    first failing one, and the error of that one, if any. *)
Fixpoint batch (w : World) (req : ChatRequest) (i n : nat)
  : list Character * option error :=
  match n with
  | O => ([], None)
  | S n' =>
      match answer w req i with
      | inl e => ([], Some e)
      | inr c =>
          let '(cs, e) := batch w req (S i) n' in (c :: cs, e)
      end
  end.

Definition batch_events (req : ChatRequest) (cs : list Character)
    (e : option error) : list Event :=
  flat_map (turn_events req) cs
  ++ match e with
     | Some e => [EvChat req; EvFatal e]
     | None => []
     end.

(** The value [os.Getenv] gives. *)
Definition getenv (w : World) (key : string) : string :=
  default EmptyString (environ w !! key).

(** The first line the programs print. *)
Definition banner (w : World) : Event :=
  EvStdout (Sprintln ["🌍"; getenv w "OLLAMA_HOST"; "📕"; getenv w "LLM"]).

(** The task as the specification words it. *)
Definition user_text (kind : string) : string :=
  "Generate a random name for an " +:+ kind +:+ " (kind always equals "
  +:+ kind +:+ ").".

(** The bytes [json.Marshal(schema)] returns. *)
Definition jsonModel : string :=
  Eval vm_compute in
    match Marshal schema with
    | Some j => j
    | None => EmptyString
    end.

(** The request of a run. *)
Definition request_of (p : Profile) (kind : string) (w : World)
  : ChatRequest :=
  request (getenv w "LLM") (messages p (user_text kind)) jsonModel.

Definition write_event (kind : string) (cs : list Character) : Event :=
  EvWriteFile (file_name kind) (table_text cs) (octal [6; 4; 4]%N).

(** Events that are requests satisfy [P]. *)
Definition requests (P : ChatRequest -> Prop) (tr : list Event) : Prop :=
  Forall (fun e => match e with EvChat r => P r | _ => True end) tr.

Definition novelty_options : list (string * OptionValue) :=
  [ ("temperature", OptFloat 17 1);
    ("repeat_last_n", OptInt 2);
    ("repeat_penalty", OptFloat 22 1);
    ("top_k", OptInt 10);
    ("top_p", OptFloat 9 1) ].

Definition is_write (e : Event) : bool :=
  match e with
  | EvWriteFile _ _ _ => true
  | _ => false
  end.

End Run.

(** ** What the decoder accepts *)

Module Decode.

Import Bytes Json GoJson.

(** A member the decoder can take in: its key selects no field, or
    its value is a string or [null]. *)
Definition well_typed_member (kv : string * json) : bool :=
  match field_of_key (fst kv), snd kv with
  | None, _ => true
  | Some _, JString _ => true
  | Some _, JNull => true
  | Some _, _ => false
  end.

(** The values [json.Unmarshal] accepts for a [Character]: [null],
    and the objects all of whose members are well typed. *)
Definition accepted (v : json) : bool :=
  match v with
  | JObject ms => forallb well_typed_member ms
  | JNull => true
  | _ => false
  end.

(** The members whose key selects field [f]. *)
Definition selects (f : field) (kv : string * json) : bool :=
  match field_of_key (fst kv), f with
  | Some FieldName, FieldName => true
  | Some FieldKind, FieldKind => true
  | _, _ => false
  end.

Definition selected (f : field) (ms : list (string * json))
  : list (string * json) :=
  List.filter (selects f) ms.

(** The value of a member of an object: as in a map, that of the last
    member with this key. *)
Fixpoint member (key : string) (ms : list (string * json)) : option json :=
  match ms with
  | [] => None
  | (k, v) :: ms' =>
      match member key ms' with
      | Some v' => Some v'
      | None => if String.eqb k key then Some v else None
      end
  end.

(** Validity for the schema the programs declare: an object whose
    members [name] and [kind] are strings; other members are allowed. *)
Definition schema_valid (v : json) : bool :=
  match v with
  | JObject ms =>
      match member "name" ms, member "kind" ms with
      | Some (JString _), Some (JString _) => true
      | _, _ => false
      end
  | _ => false
  end.

End Decode.

(** ** Stub endpoints *)

Module Scenario.

Import Bytes Json GoJson GoMarshal api Proc Main.

Definition quoted (s : string) : string := quote +:+ s +:+ quote.

(** The text of a JSON object with one or two string members. *)
Definition member_text (key value : string) : string :=
  quoted key +:+ ":" +:+ quoted value.

Definition object_text (name kind : string) : string :=
  "{" +:+ member_text "name" name +:+ "," +:+ member_text "kind" kind
  +:+ "}".

(** An endpoint that answers the [n]-th call with one response of the
    given content. *)
Definition reply (content : string) : list ChatResponse * option string :=
  ([ {| Msg := {| Role := "assistant"; Content := content |} |} ], None).

Definition stub (env : gmap string string) (contents : nat -> string)
  : World :=
  {| environ := env;
     client_error := None;
     chat := fun n _ => reply (contents n);
     write_file := fun _ _ _ => None |}.

(** The environment of the compose file. *)
Definition compose_env : gmap string string :=
  <[ "OLLAMA_HOST" := "http://ollama-service:11434" ]>
  (<[ "LLM" := "qwen2.5:0.5b" ]> ∅).

(** A response without a [name] member. *)
Definition only_kind : string := "{" +:+ member_text "kind" "Elf" +:+ "}".

Definition empty_object : string := "{}".

Definition elara : Character := {| Name := "Elara"; Kind := "Elf" |}.
Definition elara_world : World :=
  stub compose_env (fun _ => object_text "Elara" "Elf").

Definition no_env_world : World :=
  stub ∅ (fun _ => object_text "Thorin" "Dwarf").

Definition newline_name : string := object_text "a\nb" "Elf".
Definition newline_world : World := stub compose_env (fun _ => newline_name).

(** An endpoint whose third answer is not JSON. *)
Definition third_malformed : World :=
  stub compose_env
    (fun n => if (n =? 2)%nat then "not-json"
              else object_text "Thorin" "Dwarf").

(** The response of the drift scenario, and one that also has a member
    whose key differs from [kind] by case only. *)
Definition drift : string := object_text "Karl" "knight".
Definition drift_variant : string :=
  "{" +:+ member_text "name" "Karl" +:+ "," +:+ member_text "kind" "knight"
  +:+ "," +:+ member_text "KIND" "Dwarf" +:+ "}".

Definition drift_world : World := stub compose_env (fun _ => drift).
Definition karl : Character := {| Name := "Karl"; Kind := "knight" |}.

End Scenario.

(** ** What a run shows, and more endpoints *)

Module Observe.

Import Bytes Json GoJson GoMarshal GoFmt api Proc Main Text Table Run Decode
  Scenario.

Definition is_fatal (e : Event) : bool :=
  match e with
  | EvFatal _ => true
  | _ => false
  end.

(** The texts written to the standard output, in order. *)
Fixpoint stdout_texts (tr : list Event) : list string :=
  match tr with
  | [] => []
  | EvStdout t :: tr' => t :: stdout_texts tr'
  | _ :: tr' => stdout_texts tr'
  end.

(** The events of a trace other than the requests. *)
Definition local_events (tr : list Event) : list Event :=
  List.filter (fun e => negb (is_chat e)) tr.

(** The line printed for a record. *)
Definition record_line (c : Character) : string :=
  Name c +:+ " " +:+ Kind c +:+ nl.

(** The records of the turns before the first failing one. *)
Definition records (p : Profile) (selected_kind : string) (w : World)
  : list Character :=
  fst (batch w (request_of p selected_kind w) 0 batch_size).

(** An endpoint of the file system that refuses every write. *)
Definition read_only (w : World) : World :=
  {| environ := environ w;
     client_error := client_error w;
     chat := chat w;
     write_file := fun _ _ _ => Some "permission denied" |}.

(** The bytes a JSON string literal holds as they are: all but the
    control characters, the double quote and the backslash. *)
Definition literal_byte (c : ascii) : bool :=
  ((32 <=? code c) && negb (code c =? 34) && negb (code c =? 92))%N.

Fixpoint literal (s : string) : bool :=
  match s with
  | EmptyString => true
  | String c s' => literal_byte c && literal s'
  end.

(** The texts of literal bytes that are well-formed UTF-8, read with
    the tables of [utf8.DecodeRune]: ASCII bytes, and sequences of two,
    three or four bytes whose leading byte announces the length and
    bounds the second byte, the others being continuation bytes. *)
Fixpoint clean (s : string) : bool :=
  match s with
  | EmptyString => true
  | String c0 rest =>
      if (code c0 <? 128)%N then literal_byte c0 && clean rest
      else
        match rest with
        | String c1 rest1 =>
            Json.second_ok c0 c1
            && (if (Json.lead_len c0 =? 2)%nat then clean rest1
                else
                  match rest1 with
                  | String c2 rest2 =>
                      Utf.continuation c2
                      && (if (Json.lead_len c0 =? 3)%nat then clean rest2
                          else
                            match rest2 with
                            | String c3 rest3 =>
                                Utf.continuation c3 && clean rest3
                            | EmptyString => false
                            end)
                  | EmptyString => false
                  end)
        | EmptyString => false
        end
  end.

(** The content of a string literal made of raw bytes only. *)
Fixpoint units_of (s : string) : list strunit :=
  match s with
  | EmptyString => []
  | String c s' => UByte c :: units_of s'
  end.

(** The record of a name and a kind given by turn number. *)
Definition pair_at (names kinds : nat -> string) (i : nat) : Character :=
  {| Name := names i; Kind := kinds i |}.

(** A member whose key selects a field of the record. *)
Definition selects_field (kv : string * json) : bool :=
  match field_of_key (fst kv) with
  | Some _ => true
  | None => false
  end.

(** The type error a member causes, if any, and the first one of a
    list of members. *)
Definition member_error (kv : string * json) : option json_error :=
  match field_of_key (fst kv), snd kv with
  | None, _ => None
  | Some _, JString _ => None
  | Some _, JNull => None
  | Some f, v => Some (UnmarshalTypeError (value_kind v) (Some f))
  end.

Fixpoint first_error (ms : list (string * json)) : option json_error :=
  match ms with
  | [] => None
  | kv :: ms' =>
      match member_error kv with
      | Some e => Some e
      | None => first_error ms'
      end
  end.

(** ASCII letters to upper and to lower case, byte by byte. *)
Definition lower (c : ascii) : ascii :=
  if between 65 90 c then byte_of (code c + 32) else c.

Fixpoint map_bytes (g : ascii -> ascii) (s : string) : string :=
  match s with
  | EmptyString => EmptyString
  | String c s' => String (g c) (map_bytes g s')
  end.

Definition to_upper (s : string) : string := map_bytes upper s.
Definition to_lower (s : string) : string := map_bytes lower s.

(** A response with a member the record has no field for, and one with
    two members of the wrong type. *)
Definition with_level : string :=
  "{" +:+ member_text "name" "X" +:+ "," +:+ quoted "level" +:+ ":3,"
  +:+ member_text "kind" "Y" +:+ "}".

Definition two_wrong : string :=
  "{" +:+ quoted "kind" +:+ ":5," +:+ quoted "name" +:+ ":[]}".

(** Two records that differ, with the separator of the columns inside a
    name and inside a kind. *)
Definition bar_in_name : Character :=
  {| Name := "a      | b"; Kind := "c" |}.
Definition bar_in_kind : Character :=
  {| Name := "a"; Kind := "b      | c" |}.




(** How a trace may end after the turns that gave a record: with
    nothing more, with the request and the fatal message of a failing
    turn, with the write, or with the write and the fatal message of
    its error. *)
Inductive trace_end (req : ChatRequest) (selected_kind : string)
    (cs : list Character) : list Event -> Prop :=
| end_failed_turn (e : error) :
    length cs < batch_size ->
    trace_end req selected_kind cs [EvChat req; EvFatal e]
| end_written :
    length cs = batch_size ->
    trace_end req selected_kind cs [write_event selected_kind cs]
| end_failed_write (m : string) :
    length cs = batch_size ->
    trace_end req selected_kind cs
      [write_event selected_kind cs; EvFatal (ExternalError m)].

End Observe.

(** ** Facts about lines *)

Module TextFacts.

Import Bytes Text.

Lemma newlines_app (a b : string) :
  newlines (a +:+ b) = newlines a + newlines b.
Proof.
  induction a as [|c a IH]; simpl; [reflexivity|].
  rewrite IH. lia.
Qed.

Lemma lines_app_nl (a b : string) :
  newlines a = 0 -> lines (a +:+ String LF b) = a :: lines b.
Proof.
  induction a as [|c a IH]; simpl; intros H.
  - reflexivity.
  - destruct (is_LF c); [discriminate|].
    rewrite IH by exact H. reflexivity.
Qed.

Lemma length_lines_app_nl (a b : string) :
  length (lines (a +:+ String LF b)) = newlines a + 1 + length (lines b).
Proof.
  induction a as [|c a IH]; simpl.
  - reflexivity.
  - destruct (is_LF c); simpl.
    + rewrite IH. lia.
    + destruct (lines (a +:+ String LF b)) as [|l ls] eqn:E.
      * simpl in IH. lia.
      * simpl in *. lia.
Qed.

Lemma append_assoc (a b c : string) : (a +:+ b) +:+ c = a +:+ (b +:+ c).
Proof. induction a as [|x a IH]; simpl; [reflexivity|]. now rewrite IH. Qed.

Lemma append_nil_r (a : string) : a +:+ EmptyString = a.
Proof. induction a as [|x a IH]; simpl; [reflexivity|]. now rewrite IH. Qed.

End TextFacts.

(** ** Facts about the table *)

Module TableFacts.

Import Bytes GoJson GoFmt Text Main Table TextFacts.

Lemma Sprintf_row (index : Z) (name kind : string) :
  Sprintf row_format [ArgInt index; ArgString name; ArgString kind]
  = Some (data_row index name kind +:+ nl).
Proof. unfold data_row. rewrite !append_assoc. reflexivity. Qed.

Lemma add_rows_spec (characters : list Character) :
  forall idx acc,
    add_rows idx characters acc = Some (acc +:+ rows_text idx characters).
Proof.
  induction characters as [|c rest IH]; intros idx acc.
  - cbn [add_rows rows_text]. now rewrite append_nil_r.
  - cbn [add_rows rows_text]. rewrite Sprintf_row, IH.
    now rewrite !append_assoc.
Qed.

Lemma markdown_table_spec (characters : list Character) :
  markdown_table characters = Some (table_text characters).
Proof.
  unfold markdown_table. rewrite add_rows_spec. reflexivity.
Qed.

Lemma uint_newlines (d : Decimal.uint) :
  newlines (NilEmpty.string_of_uint d) = 0.
Proof. induction d; simpl; auto. Qed.

Lemma decimal_newlines (n : Z) : newlines (decimal n) = 0.
Proof.
  unfold decimal, NilZero.string_of_int, NilZero.string_of_uint.
  destruct (Z.to_int n) as [d|d]; destruct d; simpl;
    auto using uint_newlines.
Qed.

Lemma data_row_newlines (index : Z) (name kind : string) :
  newlines (data_row index name kind) = newlines name + newlines kind.
Proof.
  unfold data_row. rewrite !newlines_app, decimal_newlines. simpl. lia.
Qed.

Lemma rows_text_length (characters : list Character) :
  forall idx,
    length (lines (rows_text idx characters))
    = length characters + field_newlines characters.
Proof.
  induction characters as [|c rest IH]; intros idx;
    cbn [rows_text field_newlines length]; [reflexivity|].
  rewrite length_lines_app_nl, data_row_newlines, IH. lia.
Qed.

Lemma rows_text_lines (characters : list Character) :
  field_newlines characters = 0 ->
  forall idx, lines (rows_text idx characters) = row_lines idx characters.
Proof.
  induction characters as [|c rest IH]; intros H idx;
    cbn [rows_text row_lines field_newlines] in *; [reflexivity|].
  rewrite lines_app_nl by (rewrite data_row_newlines; lia).
  rewrite IH by lia. reflexivity.
Qed.

Lemma table_text_length (characters : list Character) :
  length (lines (table_text characters))
  = length characters + 2 + field_newlines characters.
Proof.
  unfold table_text.
  rewrite !length_lines_app_nl, rows_text_length.
  change (newlines header_line) with 0.
  change (newlines separator_line) with 0. lia.
Qed.

Lemma table_text_lines (characters : list Character) :
  field_newlines characters = 0 ->
  lines (table_text characters)
  = header_line :: separator_line :: row_lines 0 characters.
Proof.
  intros H. unfold table_text.
  rewrite !lines_app_nl by reflexivity.
  now rewrite rows_text_lines.
Qed.

Lemma row_lines_length (characters : list Character) :
  forall idx, length (row_lines idx characters) = length characters.
Proof. induction characters; intros; simpl; auto. Qed.

Lemma row_lines_lookup (characters : list Character) :
  forall idx i c,
    characters !! i = Some c ->
    row_lines idx characters !! i
    = Some (data_row (idx + Z.of_nat i + 1) (Name c) (Kind c)).
Proof.
  induction characters as [|c0 rest IH]; intros idx i c H; [discriminate|].
  destruct i as [|i]; cbn [row_lines] in *.
  - injection H as ->. now rewrite Z.add_0_r.
  - change (rest !! i = Some c) in H.
    change (row_lines (idx + 1) rest !! i
            = Some (data_row (idx + Z.of_nat (S i) + 1) (Name c) (Kind c))).
    rewrite (IH _ _ _ H). do 2 f_equal. lia.
Qed.

Lemma split_after_line (a b before x after : string) :
  b = before +:+ x +:+ String LF after ->
  a +:+ String LF b = (a +:+ String LF before) +:+ x +:+ String LF after.
Proof. intros ->. rewrite append_assoc. reflexivity. Qed.

Lemma rows_text_split (cs : list Character) :
  forall idx i c,
    cs !! i = Some c ->
    exists before after,
      rows_text idx cs
      = before +:+ data_row (idx + Z.of_nat i + 1) (Name c) (Kind c)
        +:+ String LF after.
Proof.
  induction cs as [|c0 cs IH]; intros idx i c H; [discriminate|].
  destruct i as [|i]; cbn [rows_text].
  - injection H as ->. exists EmptyString, (rows_text (idx + 1) cs).
    now rewrite Z.add_0_r.
  - change (cs !! i = Some c) in H.
    destruct (IH (idx + 1)%Z i c H) as (before & after & E).
    exists (data_row (idx + 1) (Name c0) (Kind c0) +:+ String LF before), after.
    replace (idx + Z.of_nat (S i) + 1)%Z with (idx + 1 + Z.of_nat i + 1)%Z
      by lia.
    now apply split_after_line.
Qed.

Lemma table_text_split (cs : list Character) (i : nat) (c : Character) :
  cs !! i = Some c ->
  exists before after,
    table_text cs
    = before +:+ data_row (Z.of_nat i + 1) (Name c) (Kind c)
      +:+ String LF after.
Proof.
  intros H. destruct (rows_text_split cs 0 i c H) as (before & after & E).
  exists (header_line +:+ String LF (separator_line +:+ String LF before)),
    after.
  unfold table_text.
  rewrite Z.add_0_l in E.
  now do 2 apply split_after_line.
Qed.

Lemma field_newlines_pos (cs : list Character) :
  Exists (fun c => 0 < newlines (Name c) + newlines (Kind c)) cs ->
  0 < field_newlines cs.
Proof.
  induction 1 as [c cs H|c cs H IH]; cbn [field_newlines]; lia.
Qed.

End TableFacts.

(** ** Facts about runs *)

Module RunFacts.

Import Bytes Json GoJson GoMarshal GoFmt api Proc Main Text Table Run
  TextFacts TableFacts.
Local Open Scope io_scope.

Lemma chat_calls_app (tr tr' : list Event) :
  chat_calls (tr ++ tr') = chat_calls tr + chat_calls tr'.
Proof. unfold chat_calls. now rewrite filter_app, length_app. Qed.

(** *** The batch, for a world and a request *)

Section Batch.

Variable w : World.
Variable req : ChatRequest.

Lemma iteration_spec (tr : list Event) :
  iteration req w tr
  = match answer w req (chat_calls tr) with
    | inl e => (Exited 1%Z, tr ++ [EvChat req; EvFatal e])
    | inr c => (Done c, tr ++ turn_events req c)
    end.
Proof.
  unfold iteration, generateName, answer, bind, Chat, ret, Fatal, Println,
    emit, turn_events.
  destruct (chat w (chat_calls tr) req) as [resps [m|]];
    cbn [option_map].
  - now rewrite <- app_assoc.
  - fold (jsonResult resps). fold zero.
    destruct (Unmarshal (jsonResult resps) zero) as [c [e|]];
      now rewrite <- app_assoc.
Qed.

Lemma generate_spec (n : nat) :
  forall acc tr,
    generate n req acc w tr
    = let '(cs, e) := batch w req (chat_calls tr) n in
      (match e with
       | None => Done (acc ++ cs)
       | Some _ => Exited 1%Z
       end, tr ++ batch_events req cs e).
Proof.
  induction n as [|n IH]; intros acc tr.
  - cbn. now rewrite !app_nil_r.
  - cbn [generate batch]. unfold bind at 1. rewrite iteration_spec.
    destruct (answer w req (chat_calls tr)) as [e|c].
    + reflexivity.
    + rewrite IH.
      assert (chat_calls (tr ++ turn_events req c) = S (chat_calls tr)) as ->.
      { rewrite chat_calls_app.
        change (chat_calls (turn_events req c)) with 1. lia. }
      destruct (batch w req (S (chat_calls tr)) n) as [cs e].
      unfold batch_events. cbn [flat_map].
      rewrite <- !app_assoc. now destruct e.
Qed.

Lemma batch_length (n : nat) :
  forall i cs, batch w req i n = (cs, None) -> length cs = n.
Proof.
  induction n as [|n IH]; intros i cs H; cbn in H.
  - now inversion H.
  - destruct (answer w req i) as [e|c]; [discriminate|].
    destruct (batch w req (S i) n) as [cs' e'] eqn:E.
    inversion H; subst. cbn. f_equal. eauto.
Qed.

Lemma batch_answers (n : nat) :
  forall i cs e,
    batch w req i n = (cs, e) ->
    forall m c, cs !! m = Some c -> answer w req (i + m) = inr c.
Proof.
  induction n as [|n IH]; intros i cs e H m c Hm; cbn [batch] in H.
  - injection H as <- <-. discriminate.
  - destruct (answer w req i) as [err|c0] eqn:Ea.
    + injection H as <- <-. discriminate.
    + destruct (batch w req (S i) n) as [cs' e'] eqn:Eb.
      injection H as <- <-.
      destruct m as [|m].
      * injection Hm as <-. now rewrite Nat.add_0_r.
      * replace (i + S m) with (S i + m) by lia.
        eapply IH; eauto.
Qed.

Lemma answer_inr (i : nat) (c : Character) :
  answer w req i = inr c ->
  exists resps,
    chat w i req = (resps, None)
    /\ Unmarshal (jsonResult resps) zero = (c, None).
Proof.
  unfold answer. destruct (chat w i req) as [resps [m|]]; [discriminate|].
  destruct (Unmarshal (jsonResult resps) zero) as [c' [e|]] eqn:E;
    [discriminate|].
  intros H. injection H as ->. eauto.
Qed.

Lemma batch_events_head (i n : nat) :
  exists rest,
    batch_events req (fst (batch w req i (S n))) (snd (batch w req i (S n)))
    = EvChat req :: rest.
Proof.
  cbn [batch]. destruct (answer w req i) as [e|c].
  - cbn. eauto.
  - destruct (batch w req (S i) n) as [cs e]. cbn. eauto.
Qed.

Lemma batch_events_no_write (cs : list Character) (e : option error) :
  List.filter is_write (batch_events req cs e) = [].
Proof.
  unfold batch_events. rewrite List.filter_app.
  assert (List.filter is_write (flat_map (turn_events req) cs) = []) as ->.
  { induction cs as [|c cs IH]; cbn; auto. }
  now destruct e.
Qed.

Lemma batch_events_chat_calls (cs : list Character) (e : option error) :
  chat_calls (batch_events req cs e)
  = length cs + match e with Some _ => 1 | None => 0 end.
Proof.
  unfold batch_events. rewrite chat_calls_app.
  assert (chat_calls (flat_map (turn_events req) cs) = length cs) as ->.
  { induction cs as [|c cs IH]; [reflexivity|].
    cbn [flat_map]. rewrite chat_calls_app, IH. reflexivity. }
  now destruct e.
Qed.

(** A failing turn among the next [n] stops the batch at the first
    failing turn. *)
Lemma batch_failure (n : nat) :
  forall i k e0,
    k < n ->
    answer w req (i + k) = inl e0 ->
    exists j e cs,
      j <= k
      /\ batch w req i n = (cs, Some e)
      /\ length cs = j
      /\ answer w req (i + j) = inl e.
Proof.
  induction n as [|n IH]; intros i k e0 Hk Ha; [lia|].
  cbn [batch]. destruct (answer w req i) as [e|c] eqn:E.
  - exists 0, e, []. rewrite Nat.add_0_r. repeat split; auto. lia.
  - destruct k as [|k].
    + rewrite Nat.add_0_r in Ha. congruence.
    + replace (i + S k) with (S i + k) in Ha by lia.
      destruct (IH (S i) k e0 ltac:(lia) Ha) as (j & e & cs & Hj & Hb & Hl & Hf).
      exists (S j), e, (c :: cs). rewrite Hb.
      replace (i + S j) with (S i + j) by lia.
      repeat split; auto; cbn; lia.
Qed.

End Batch.

Lemma Sprintf_userContent (kind : string) :
  Sprintf userContent_format [ArgString kind; ArgString kind]
  = Some (user_text kind).
Proof. reflexivity. Qed.

Lemma Marshal_schema : Marshal schema = Some jsonModel.
Proof. vm_compute. reflexivity. Qed.

Lemma main_spec (p : Profile) (kind : string) (w : World) :
  run (main_of p kind) w
  = match client_error w with
    | Some m => (Exited 1%Z, [banner w; EvFatal (ExternalError m)])
    | None =>
        let req := request_of p kind w in
        let '(cs, e) := batch w req 0 batch_size in
        let tr := banner w :: batch_events req cs e in
        match e with
        | Some _ => (Exited 1%Z, tr)
        | None =>
            let tr' := tr ++ [write_event kind cs] in
            match write_file w (file_name kind) (table_text cs)
                    (octal [6; 4; 4]%N) with
            | Some m => (Exited 1%Z, tr' ++ [EvFatal (ExternalError m)])
            | None => (Done tt, tr')
            end
        end
    end.
Proof.
  unfold run, main_of.
  unfold bind at 1. unfold Getenv at 1.
  unfold bind at 1. unfold Getenv at 1.
  unfold bind at 1. unfold Println at 1, emit.
  unfold bind at 1. unfold ClientFromEnvironment.
  fold (getenv w "OLLAMA_HOST"). fold (getenv w "LLM").
  destruct (client_error w) as [m|]; cbn [option_map].
  - reflexivity.
  - rewrite Marshal_schema, Sprintf_userContent.
    unfold bind at 1. unfold ret at 1.
    unfold bind at 1. unfold modelled at 1, ret at 1.
    unfold bind at 1. rewrite generate_spec.
    fold (request_of p kind w).
    change (chat_calls ([] ++ [EvStdout _])) with 0.
    cbv zeta.
    destruct (batch w (request_of p kind w) 0 batch_size) as [cs [e|]].
    + reflexivity.
    + rewrite markdown_table_spec.
      unfold bind at 1. unfold modelled at 1, ret at 1.
      unfold bind at 1. unfold WriteFile.
      destruct (write_file w _ _ _); reflexivity.
Qed.

Lemma requests_of_run (p : Profile) (kind : string) (w : World) :
  requests (fun r => r = request_of p kind w) (snd (run (main_of p kind) w)).
Proof.
  rewrite main_spec. unfold requests.
  assert (forall cs e,
             Forall (fun e => match e with
                              | EvChat r => r = request_of p kind w
                              | _ => True
                              end)
               (batch_events (request_of p kind w) cs e)) as Hb.
  { intros cs e. unfold batch_events. apply Forall_app. split.
    - induction cs as [|c cs IH]; cbn; auto.
    - destruct e; auto. }
  destruct (client_error w) as [m|].
  - cbn [snd]. repeat constructor.
  - cbv zeta.
    destruct (batch w (request_of p kind w) 0 batch_size) as [cs [e|]].
    + cbn [snd]. constructor; [exact I | apply Hb].
    + destruct (write_file w _ _ _); cbn [snd];
        repeat (apply Forall_app; split); repeat constructor; auto.
      all: try apply Hb.
Qed.

Lemma requests_impl (P Q : ChatRequest -> Prop) (tr : list Event) :
  (forall r, P r -> Q r) -> requests P tr -> requests Q tr.
Proof.
  intros H HP. unfold requests in *.
  eapply List.Forall_impl; [|exact HP]. intros [] ?; auto.
Qed.

(** A completed run, taken apart. *)
Lemma completed_run (p : Profile) (kind : string) (w : World)
    (tr : list Event) :
  run (main_of p kind) w = (Done tt, tr) ->
  exists cs,
    batch w (request_of p kind w) 0 batch_size = (cs, None)
    /\ tr = banner w :: batch_events (request_of p kind w) cs None
            ++ [write_event kind cs].
Proof.
  rewrite main_spec. destruct (client_error w); [discriminate|]. cbv zeta.
  destruct (batch w (request_of p kind w) 0 batch_size) as [cs [e|]];
    [discriminate|].
  destruct (write_file w _ _ _); [discriminate|].
  intros H. injection H as <-. eauto.
Qed.

End RunFacts.

(** ** Facts about the decoder *)

Module DecodeFacts.

Import Bytes Json GoJson Run Decode.

Lemma selects_iff (f : field) (kv : string * json) :
  selects f kv = true <-> field_of_key (fst kv) = Some f.
Proof.
  unfold selects. destruct (field_of_key (fst kv)) as [[]|], f;
    split; congruence.
Qed.

Lemma get_set_same (f : field) (s : string) (c : Character) :
  get_field f (set_field f s c) = s.
Proof. now destruct f. Qed.

Lemma get_set_other (f g : field) (s : string) (c : Character) :
  f <> g -> get_field f (set_field g s c) = get_field f c.
Proof. destruct f, g; intros H; try reflexivity; now destruct H. Qed.

Lemma store_field_error (f : field) (v : json) (c : Character) :
  snd (store_field f v c) = None
  <-> match v with JString _ | JNull => True | _ => False end.
Proof. destruct v; simpl; split; intros H; try easy. Qed.

Lemma store_field_other (f g : field) (v : json) (c : Character) :
  f <> g -> get_field f (fst (store_field g v c)) = get_field f c.
Proof.
  intros H. destruct v; simpl; auto using get_set_other.
Qed.

(** The error of an object is decided by its members' types. *)
Lemma decode_members_error (ms : list (string * json)) :
  forall c saved,
    snd (decode_members ms c saved) = None
    <-> saved = None /\ forallb well_typed_member ms = true.
Proof.
  induction ms as [|[k v] ms IH]; intros c saved; cbn [decode_members forallb].
  - simpl. intuition.
  - unfold well_typed_member at 1. cbn [fst snd].
    destruct (field_of_key k) as [f|].
    + destruct (store_field f v c) as [c' e] eqn:E.
      rewrite IH.
      assert (e = None <-> match v with JString _ | JNull => True
                                   | _ => False end) as He.
      { rewrite <- (store_field_error f v c), E. reflexivity. }
      destruct saved as [s|]; simpl.
      * intuition discriminate.
      * destruct v; simpl in *; intuition; try discriminate.
    + rewrite IH. simpl. intuition.
Qed.

(** A field no member selects keeps its value. *)
Lemma decode_members_untouched (f : field) (ms : list (string * json)) :
  forall c saved,
    selected f ms = [] ->
    get_field f (fst (decode_members ms c saved)) = get_field f c.
Proof.
  induction ms as [|[k v] ms IH]; intros c saved H; cbn [decode_members].
  - reflexivity.
  - unfold selected in H. cbn [List.filter] in H.
    destruct (selects f (k, v)) eqn:Es; [discriminate|].
    destruct (field_of_key k) as [g|] eqn:Ek.
    + destruct (store_field g v c) as [c' e] eqn:E.
      rewrite IH by exact H.
      replace c' with (fst (store_field g v c)) by now rewrite E.
      apply store_field_other. intros ->.
      assert (selects g (k, v) = true) by now apply selects_iff.
      congruence.
    + now apply IH.
Qed.

(** A field that exactly one member selects, with a string value,
    ends with that string. *)
Lemma decode_members_single (f : field) (ms : list (string * json)) :
  forall c saved k s,
    selected f ms = [(k, JString s)] ->
    get_field f (fst (decode_members ms c saved)) = s.
Proof.
  induction ms as [|[k0 v0] ms IH]; intros c saved k s H;
    cbn [decode_members].
  - discriminate.
  - unfold selected in H. cbn [List.filter] in H.
    destruct (selects f (k0, v0)) eqn:Es.
    + injection H as -> -> H.
      apply selects_iff in Es. cbn [fst] in Es. rewrite Es.
      cbn [store_field].
      rewrite decode_members_untouched by exact H.
      apply get_set_same.
    + destruct (field_of_key k0) as [g|] eqn:Ek.
      * destruct (store_field g v0 c) as [c' e].
        now apply IH with (k := k).
      * now apply IH with (k := k).
Qed.

(** Every field of the result is the one it started with, or the
    string value of a member whose key selects it. *)
Lemma decode_members_origin (f : field) (ms : list (string * json)) :
  forall c saved,
    get_field f (fst (decode_members ms c saved)) = get_field f c
    \/ exists k,
         In (k, JString (get_field f (fst (decode_members ms c saved)))) ms
         /\ field_of_key k = Some f.
Proof.
  induction ms as [|[k v] ms IH]; intros c saved; cbn [decode_members].
  - now left.
  - destruct (field_of_key k) as [g|] eqn:Ek.
    + destruct (store_field g v c) as [c' e] eqn:E.
      destruct (IH c' (saveError saved e)) as [H|[k' [H1 H2]]].
      * destruct v; simpl in E; injection E as <- <-; rewrite H;
          try (now left).
        destruct f, g; simpl; try (now left);
          right; exists k; (split; [now left | assumption]).
      * right. exists k'. split; auto. now right.
    + destruct (IH c saved) as [H|[k' [H1 H2]]]; auto.
      right. exists k'. split; auto. now right.
Qed.

Lemma Unmarshal_origin (content : string) (c : Character) (f : field) :
  Unmarshal content zero = (c, None) ->
  get_field f c = EmptyString
  \/ exists ms k,
       parse content = Some (JObject ms)
       /\ In (k, JString (get_field f c)) ms
       /\ field_of_key k = Some f.
Proof.
  unfold Unmarshal. destruct (parse content) as [v|]; [|discriminate].
  destruct v; simpl; intros H; try discriminate.
  - injection H as <-. left. now destruct f.
  - destruct (decode_members_origin f members zero None) as [Ho|[k [H1 H2]]];
      rewrite H in *; simpl in *.
    + left. rewrite Ho. now destruct f.
    + right. eauto.
Qed.

Lemma member_unselected (f : field) (ms : list (string * json)) :
  selected f ms = [] -> member (json_name f) ms = None.
Proof.
  induction ms as [|[k0 v0] ms IH]; intros H; cbn [member]; [reflexivity|].
  unfold selected in H. cbn [List.filter] in H.
  destruct (selects f (k0, v0)) eqn:Es; [discriminate|].
  rewrite (IH H).
  destruct (String.eqb_spec k0 (json_name f)) as [->|]; [|reflexivity].
  now destruct f.
Qed.

Lemma member_selected (f : field) (ms : list (string * json)) (s : string) :
  selected f ms = [(json_name f, JString s)] ->
  member (json_name f) ms = Some (JString s).
Proof.
  induction ms as [|[k0 v0] ms IH]; intros H; [discriminate|].
  unfold selected in H. cbn [List.filter] in H. cbn [member].
  destruct (selects f (k0, v0)) eqn:Es.
  - injection H as -> -> H. rewrite (member_unselected f ms H).
    now rewrite String.eqb_refl.
  - now rewrite (IH H).
Qed.

End DecodeFacts.

(** ** The model on concrete inputs *)

Module Examples.

Import Bytes Json GoJson GoMarshal GoFmt api Proc Main Text Table Run Decode
  Scenario.

(** The scanner. *)
Example parse_object :
  parse (object_text "Elara" "Elf")
  = Some (JObject [("name", JString "Elara"); ("kind", JString "Elf")]).
Proof. vm_compute. reflexivity. Qed.

Example parse_nested :
  parse (" [1, -0.5e+3, true, null, {" +:+ quoted "a" +:+ ": [], "
         +:+ quoted "b" +:+ ":{}}] ")
  = Some (JArray [JNumber "1"; JNumber "-0.5e+3"; JBool true; JNull;
                  JObject [("a", JArray []); ("b", JObject [])]]).
Proof. vm_compute. reflexivity. Qed.

Example parse_rejects :
  map parse ["not-json"; "01"; "[1,]"; "{,}"; "nul"; "1 2"; "-"; "1.e3";
             EmptyString; "[1}"; quote +:+ "a"]
  = [None; None; None; None; None; None; None; None; None; None; None].
Proof. vm_compute. reflexivity. Qed.

(** Escapes: [\n] is a newline, [é] is U+00E9 in UTF-8, a pair of
    surrogates is one code point, a lone surrogate is U+FFFD. *)
Example parse_escapes :
  parse (quoted "a\nbé😀\ud83d\ude00\ud800")
  = Some (JString ("a" +:+ of_codes [10%N] +:+ "b"
                   +:+ of_codes [195; 169]%N
                   +:+ of_codes [240; 159; 152; 128]%N
                   +:+ of_codes [240; 159; 152; 128]%N
                   +:+ of_codes [239; 191; 189]%N)).
Proof. vm_compute. reflexivity. Qed.

(** The decoder. *)
Example unmarshal_pair :
  Unmarshal (object_text "Thorin" "Dwarf") zero
  = ({| Name := "Thorin"; Kind := "Dwarf" |}, None).
Proof. vm_compute. reflexivity. Qed.

Example unmarshal_extra_member :
  Unmarshal ("{" +:+ member_text "name" "X" +:+ "," +:+ quoted "level"
             +:+ ":3," +:+ member_text "kind" "Y" +:+ "}") zero
  = ({| Name := "X"; Kind := "Y" |}, None).
Proof. vm_compute. reflexivity. Qed.

Example unmarshal_number_for_name :
  Unmarshal ("{" +:+ quoted "name" +:+ ":5," +:+ member_text "kind" "Y"
             +:+ "}") zero
  = ({| Name := EmptyString; Kind := "Y" |},
     Some (UnmarshalTypeError "number" (Some FieldName))).
Proof. vm_compute. reflexivity. Qed.

Example unmarshal_null_member :
  Unmarshal ("{" +:+ quoted "name" +:+ ":null," +:+ member_text "kind" "Y"
             +:+ "}") zero
  = ({| Name := EmptyString; Kind := "Y" |}, None).
Proof. vm_compute. reflexivity. Qed.

Example unmarshal_top_level :
  map (fun s => snd (Unmarshal s zero)) ["null"; "[]"; "7"; "true"; "not-json"]
  = [None;
     Some (UnmarshalTypeError "array" None);
     Some (UnmarshalTypeError "number" None);
     Some (UnmarshalTypeError "bool" None);
     Some SyntaxError].
Proof. vm_compute. reflexivity. Qed.

(** Keys are matched without regard to case; the Kelvin sign folds to
    [K]. *)
Example keys_fold :
  map field_of_key ["name"; "Name"; "KIND"; "kinds";
                    of_codes [226; 132; 170]%N +:+ "ind"]
  = [Some FieldName; Some FieldName; Some FieldKind; None; Some FieldKind].
Proof. vm_compute. reflexivity. Qed.

(** The schema survives [json.Marshal] and the scanner. *)
Example schema_round_trip :
  option_map normalize (parse jsonModel) = Some (normalize (json_of schema)).
Proof. vm_compute. reflexivity. Qed.

(** Scenario 1 of the specification: fifteen times (Thorin, Dwarf). *)
Example thorin_run :
  run main02 (stub compose_env (fun _ => object_text "Thorin" "Dwarf"))
  = (Done tt,
     banner (stub compose_env (fun _ => object_text "Thorin" "Dwarf"))
     :: flat_map
          (turn_events
             (request_of Minimal kind
                (stub compose_env (fun _ => object_text "Thorin" "Dwarf"))))
          (replicate 15 {| Name := "Thorin"; Kind := "Dwarf" |})
     ++ [write_event kind
           (replicate 15 {| Name := "Thorin"; Kind := "Dwarf" |})]).
Proof. vm_compute. reflexivity. Qed.

Example thorin_lines :
  lines (table_text (replicate 2 {| Name := "Thorin"; Kind := "Dwarf" |}))
  = [ "| Index | Name     | Kind       |";
      "|------|----------|------------|";
      "| 1   | Thorin      | Dwarf       |";
      "| 2   | Thorin      | Dwarf       |" ].
Proof. vm_compute. reflexivity. Qed.

End Examples.

(** * The claims of the specification *)

Import Bytes Json GoJson GoMarshal GoFmt api Proc Main Text Table Run Decode
  Scenario TextFacts TableFacts RunFacts DecodeFacts.

(** Closed facts about concrete runs are settled by evaluation. *)
Ltac by_evaluation := vm_compute; reflexivity.

(** C1, counterexample.  The response [{"kind":"Elf"}] is a JSON object
    without a [name] member; [json.Unmarshal] returns no error on it,
    the record has an empty name, and a batch of fifteen such responses
    runs to completion.  The text [null], which is not an object, is
    accepted as well. *)
Lemma C1_missing_name_accepted :
  parse only_kind = Some (JObject [("kind", JString "Elf")])
  /\ Unmarshal only_kind zero
     = ({| Name := EmptyString; Kind := "Elf" |}, None)
  /\ fst (run main02 (stub compose_env (fun _ => only_kind))) = Done tt
  /\ parse "null" = Some JNull
  /\ Unmarshal "null" zero = (zero, None).
Proof. repeat split; by_evaluation. Qed.

(** C1, as amended.  The validator fails exactly on the texts that are
    not valid JSON, on the values that are neither an object nor
    [null], and on the objects with a member whose key matches [name]
    or [kind] and whose value is neither a string nor [null].  Presence
    is not enforced: an accepted object without a member matching
    [name] gives a record with an empty name.  When the validator fails
    on the content of a turn, the batch stops at that turn with exit
    code 1 and the JSON error; otherwise the turn yields the record. *)
Theorem C1_validator (content : string) (c0 : Character) :
  (snd (Unmarshal content c0) = None
   <-> exists v, parse content = Some v /\ accepted v = true)
  /\ (forall ms,
        parse content = Some (JObject ms) ->
        accepted (JObject ms) = true ->
        selected FieldName ms = [] ->
        Unmarshal content zero
        = ({| Name := EmptyString;
              Kind := Kind (fst (Unmarshal content zero)) |}, None))
  /\ (forall req w tr resps,
        chat w (chat_calls tr) req = (resps, None) ->
        jsonResult resps = content ->
        match Unmarshal content zero with
        | (_, Some e) =>
            forall n acc,
              generate (S n) req acc w tr
              = (Exited 1%Z, tr ++ [EvChat req; EvFatal (JsonError e)])
        | (c, None) =>
            iteration req w tr = (Done c, tr ++ turn_events req c)
        end).
Proof.
  split; [|split].
  - unfold Unmarshal. destruct (parse content) as [v|]; simpl.
    + destruct v; simpl;
        try (split; [discriminate
                    | intros (v & H & A); injection H as <-; discriminate]).
      * split; eauto.
      * rewrite decode_members_error. split.
        -- intros [_ H]. eauto.
        -- intros (v & H & A). injection H as <-. auto.
    + split; [discriminate | intros (v & H & _); discriminate].
  - intros ms Hp Ha Hs. unfold Unmarshal. rewrite Hp. cbn [decode_value].
    pose proof (decode_members_untouched FieldName ms zero None Hs) as Hn.
    pose proof (proj2 (decode_members_error ms zero None) (conj eq_refl Ha))
      as He.
    destruct (decode_members ms zero None) as [[n k] e]. simpl in *. now subst.
  - intros req w tr resps Hc Hj.
    destruct (Unmarshal content zero) as [c [e|]] eqn:E.
    + intros n acc. cbn [generate]. unfold bind. rewrite iteration_spec.
      unfold answer. rewrite Hc, Hj, E. reflexivity.
    + rewrite iteration_spec. unfold answer. rewrite Hc, Hj, E. reflexivity.
Qed.

(** C2, counterexample.  The response [{}] is accepted, and the batch of
    a run whose endpoint always answers [{}] holds fifteen records whose
    name and kind are both empty. *)
Lemma C2_empty_fields_reach_batch :
  Unmarshal empty_object zero
  = ({| Name := EmptyString; Kind := EmptyString |}, None)
  /\ fst (generate batch_size
            (request_of Minimal kind (stub compose_env (fun _ => empty_object)))
            [] (stub compose_env (fun _ => empty_object)) [])
     = Done (replicate batch_size
               {| Name := EmptyString; Kind := EmptyString |}).
Proof. split; by_evaluation. Qed.

(** C2, as amended.  Every record of the batch was accepted by the
    validator on the content of some answer of the endpoint, and each of
    its two fields is either empty or the string value of a member of
    that answer whose key matches the field. *)
Theorem C2_fields_origin (n : nat) (req : ChatRequest) (w : World)
    (tr tr' : list Event) (cs : list Character) :
  generate n req [] w tr = (Done cs, tr') ->
  Forall (fun c =>
            exists i resps,
              chat w i req = (resps, None)
              /\ Unmarshal (jsonResult resps) zero = (c, None)
              /\ forall f,
                   get_field f c = EmptyString
                   \/ exists ms k,
                        parse (jsonResult resps) = Some (JObject ms)
                        /\ In (k, JString (get_field f c)) ms
                        /\ field_of_key k = Some f) cs.
Proof.
  rewrite generate_spec.
  destruct (batch w req (chat_calls tr) n) as [cs' [e|]] eqn:Eb;
    [discriminate|].
  intros H. injection H as <- _. cbn [app].
  apply Forall_lookup_2. intros m c Hm.
  pose proof (batch_answers _ _ _ _ _ _ Eb m c Hm) as Ha.
  apply answer_inr in Ha as (resps & Hc & Hu).
  exists (chat_calls tr + m), resps. repeat split; auto.
  intros f. now apply Unmarshal_origin.
Qed.

Lemma C2_fields_origin_witness :
  Forall (fun c =>
            exists i resps,
              chat elara_world i (request_of Minimal kind elara_world)
              = (resps, None)
              /\ Unmarshal (jsonResult resps) zero = (c, None)
              /\ forall f,
                   get_field f c = EmptyString
                   \/ exists ms k,
                        parse (jsonResult resps) = Some (JObject ms)
                        /\ In (k, JString (get_field f c)) ms
                        /\ field_of_key k = Some f) [elara].
Proof.
  apply (C2_fields_origin 1 (request_of Minimal kind elara_world) elara_world
           [] (turn_events (request_of Minimal kind elara_world) elara)).
  vm_compute. reflexivity.
Defined.

(** C3, counterexample.  With an empty environment, hence without
    [LLM], the run completes with exit code 0 after fifteen chat
    requests. *)
Lemma C3_missing_LLM_request_issued :
  environ no_env_world !! "LLM" = None
  /\ fst (run main02 no_env_world) = Done tt
  /\ chat_calls (snd (run main02 no_env_world)) = 15.
Proof. repeat split; by_evaluation. Qed.

(** C3, as amended.  When [LLM] is missing the model identifier of the
    request is the empty string and no configuration error is raised
    for it: unless the client cannot be built, in which case the process
    exits with code 1 before any request, the first thing the run does
    after its banner is to issue the chat request with that empty
    model. *)
Theorem C3_missing_LLM (p : Profile) (selected_kind : string) (w : World) :
  environ w !! "LLM" = None ->
  Model (request_of p selected_kind w) = EmptyString
  /\ match client_error w with
     | Some m =>
         run (main_of p selected_kind) w
         = (Exited 1%Z, [banner w; EvFatal (ExternalError m)])
     | None =>
         exists rest,
           snd (run (main_of p selected_kind) w)
           = banner w :: EvChat (request_of p selected_kind w) :: rest
     end.
Proof.
  intros H. split.
  - cbn [request_of request Model]. unfold getenv. now rewrite H.
  - rewrite main_spec. destruct (client_error w) as [m|]; [reflexivity|].
    cbv zeta.
    destruct (batch_events_head w (request_of p selected_kind w) 0 14)
      as [rest Hr].
    change (S 14) with batch_size in Hr.
    destruct (batch w (request_of p selected_kind w) 0 batch_size)
      as [cs [e|]]; cbn [fst snd] in Hr; rewrite Hr.
    + eauto.
    + destruct (write_file w _ _ _); cbn [snd]; eauto.
Qed.

Lemma C3_missing_LLM_witness :
  Model (request_of Minimal kind no_env_world) = EmptyString
  /\ exists rest,
       snd (run (main_of Minimal kind) no_env_world)
       = banner no_env_world
         :: EvChat (request_of Minimal kind no_env_world) :: rest.
Proof.
  apply (C3_missing_LLM Minimal kind no_env_world). vm_compute. reflexivity.
Defined.

(** C4.  Every chat request of every run has the streaming flag set to
    false, a [format] that parses to a document structurally equal to
    the declared schema, and the options map configured in the program,
    which holds exactly temperature=1.7, repeat_last_n=2,
    repeat_penalty=2.2, top_k=10 and top_p=0.9. *)
Theorem C4_request_shape (p : Profile) (selected_kind : string) (w : World) :
  requests (fun r =>
              Stream r = Some false
              /\ (exists v, parse (Format r) = Some v
                            /\ json_equal v (json_of schema))
              /\ Options r = options
              /\ Options r = list_to_map novelty_options
              /\ forall key,
                   Options r !! key
                   = snd <$> List.find (fun kv => String.eqb (fst kv) key)
                               novelty_options)
    (snd (run (main_of p selected_kind) w)).
Proof.
  eapply requests_impl; [|apply requests_of_run].
  intros r ->. cbn [request_of request Stream Format Options].
  split; [reflexivity|]. split.
  - eexists. split; by_evaluation.
  - split; [reflexivity|]. split; [by_evaluation|].
    intros key. unfold options, novelty_options. cbn [List.find fst snd].
    destruct (String.eqb_spec "temperature" key) as [<-|H1];
      [by_evaluation | rewrite lookup_insert_ne by exact H1].
    destruct (String.eqb_spec "repeat_last_n" key) as [<-|H2];
      [by_evaluation | rewrite lookup_insert_ne by exact H2].
    destruct (String.eqb_spec "repeat_penalty" key) as [<-|H3];
      [by_evaluation | rewrite lookup_insert_ne by exact H3].
    destruct (String.eqb_spec "top_k" key) as [<-|H4];
      [by_evaluation | rewrite lookup_insert_ne by exact H4].
    destruct (String.eqb_spec "top_p" key) as [<-|H5];
      [by_evaluation | rewrite lookup_insert_ne by exact H5].
    apply lookup_empty.
Qed.

(** C5, counterexample.  When the endpoint answers with a name that
    holds a newline (the JSON escape [\n]), the run completes and the
    file it writes has 32 lines, not [batch_size + 2 = 17]. *)
Lemma C5_newline_adds_lines :
  fst (run main02 newline_world) = Done tt
  /\ exists data,
       last (snd (run main02 newline_world))
       = Some (EvWriteFile "./characters.Dwarf.md" data 420%N)
       /\ length (lines data) = batch_size + 2 + 15.
Proof. split; [by_evaluation|]. eexists. split; by_evaluation. Qed.

(** C5, as amended.  A completed run writes the table of its batch of
    [batch_size] records, the records being the answers of the endpoint
    in order; the [i]-th data row (from 0) is the row of the [i]-th
    record with index [i + 1]; when no name and no kind holds a
    newline, the lines of the file are the header, the separator and
    these rows, [batch_size + 2] lines in all; the row of (Elara, Elf)
    at index 1 is the literal one. *)
Theorem C5_table_shape (p : Profile) (selected_kind : string) (w : World)
    (tr : list Event) :
  run (main_of p selected_kind) w = (Done tt, tr) ->
  exists cs,
    length cs = batch_size
    /\ (forall i c, cs !! i = Some c ->
                    answer w (request_of p selected_kind w) i = inr c)
    /\ last tr
       = Some (EvWriteFile (file_name selected_kind) (table_text cs) 420%N)
    /\ (forall i c, cs !! i = Some c ->
                    row_lines 0 cs !! i
                    = Some (data_row (Z.of_nat i + 1) (Name c) (Kind c)))
    /\ (field_newlines cs = 0 ->
        lines (table_text cs)
        = header_line :: separator_line :: row_lines 0 cs
        /\ length (lines (table_text cs)) = batch_size + 2)
    /\ data_row 1 "Elara" "Elf" = "| 1   | Elara      | Elf       |".
Proof.
  intros H. apply completed_run in H as (cs & Hb & ->).
  exists cs. pose proof (batch_length _ _ _ _ _ Hb) as Hl.
  split; [exact Hl|]. split.
  { intros i c Hi. apply (batch_answers _ _ _ _ _ _ Hb i c Hi). }
  split.
  { rewrite app_comm_cons, last_snoc. reflexivity. }
  split.
  { intros i c Hi. rewrite (row_lines_lookup cs 0 i c Hi). do 2 f_equal. }
  split.
  { intros Hn. split; [now apply table_text_lines|].
    rewrite table_text_length. lia. }
  by_evaluation.
Qed.

Lemma C5_table_shape_witness :
  exists cs,
    length cs = batch_size
    /\ (forall i c, cs !! i = Some c ->
                    answer elara_world (request_of Minimal kind elara_world) i
                    = inr c)
    /\ last (snd (run (main_of Minimal kind) elara_world))
       = Some (EvWriteFile (file_name kind) (table_text cs) 420%N)
    /\ (forall i c, cs !! i = Some c ->
                    row_lines 0 cs !! i
                    = Some (data_row (Z.of_nat i + 1) (Name c) (Kind c)))
    /\ (field_newlines cs = 0 ->
        lines (table_text cs)
        = header_line :: separator_line :: row_lines 0 cs
        /\ length (lines (table_text cs)) = batch_size + 2)
    /\ data_row 1 "Elara" "Elf" = "| 1   | Elara      | Elf       |".
Proof.
  apply (C5_table_shape Minimal kind elara_world).
  vm_compute. reflexivity.
Defined.

(** C6.  When the client was built and some turn [i] of the batch fails
    (the chat call returns an error, or its content is rejected by the
    validator), the run stops at the first failing turn [j <= i]: the
    [j] turns before it gave the records [cs], the run exits with code
    1, its trace is the banner, these [j] turns, the request of turn
    [j] and the fatal error, so exactly [j + 1] requests were issued,
    and no file was written. *)
Theorem C6_failure_aborts (p : Profile) (selected_kind : string) (w : World)
    (i : nat) (e0 : error) :
  client_error w = None ->
  i < batch_size ->
  answer w (request_of p selected_kind w) i = inl e0 ->
  exists j e cs,
    j <= i
    /\ length cs = j
    /\ (forall m c, cs !! m = Some c ->
                    answer w (request_of p selected_kind w) m = inr c)
    /\ answer w (request_of p selected_kind w) j = inl e
    /\ run (main_of p selected_kind) w
       = (Exited 1%Z,
          banner w :: flat_map (turn_events (request_of p selected_kind w)) cs
          ++ [EvChat (request_of p selected_kind w); EvFatal e])
    /\ chat_calls (snd (run (main_of p selected_kind) w)) = S j
    /\ List.filter is_write (snd (run (main_of p selected_kind) w)) = [].
Proof.
  intros Hc Hi Ha.
  destruct (batch_failure w (request_of p selected_kind w) batch_size 0 i e0
              Hi Ha) as (j & e & cs & Hj & Hb & Hl & Hf).
  exists j, e, cs.
  rewrite main_spec, Hc. cbv zeta. rewrite Hb.
  cbn [snd]. repeat split; auto.
  - intros m c Hm. apply (batch_answers _ _ _ _ _ _ Hb m c Hm).
  - change (banner w :: ?l) with ([banner w] ++ l).
    rewrite chat_calls_app, batch_events_chat_calls, Hl.
    change (chat_calls [banner w]) with 0. lia.
  - change (banner w :: ?l) with ([banner w] ++ l).
    rewrite List.filter_app, batch_events_no_write. reflexivity.
Qed.

Lemma C6_failure_aborts_witness :
  exists j e cs,
    j <= 2
    /\ length cs = j
    /\ (forall m c, cs !! m = Some c ->
                    answer third_malformed
                      (request_of Minimal kind third_malformed) m = inr c)
    /\ answer third_malformed (request_of Minimal kind third_malformed) j
       = inl e
    /\ run (main_of Minimal kind) third_malformed
       = (Exited 1%Z,
          banner third_malformed
          :: flat_map (turn_events (request_of Minimal kind third_malformed)) cs
          ++ [EvChat (request_of Minimal kind third_malformed); EvFatal e])
    /\ chat_calls (snd (run (main_of Minimal kind) third_malformed)) = S j
    /\ List.filter is_write (snd (run (main_of Minimal kind) third_malformed))
       = [].
Proof.
  apply (C6_failure_aborts Minimal kind third_malformed 2
           (JsonError SyntaxError)).
  - reflexivity.
  - unfold batch_size. lia.
  - vm_compute. reflexivity.
Defined.

(** C7, counterexample.  The response
    [{"name":"Karl","kind":"knight","KIND":"Dwarf"}] is valid for the
    schema and its [kind] is [knight], not the requested [Dwarf]; the
    decoder matches keys without regard to case, so the member [KIND]
    overwrites the kind and the record is (Karl, Dwarf). *)
Lemma C7_variant_key_overrides :
  exists ms,
    parse drift_variant = Some (JObject ms)
    /\ schema_valid (JObject ms) = true
    /\ member "kind" ms = Some (JString "knight")
    /\ "knight" <> kind
    /\ Unmarshal drift_variant zero
       = ({| Name := "Karl"; Kind := "Dwarf" |}, None).
Proof.
  eexists. split; [by_evaluation|].
  repeat split; try by_evaluation. discriminate.
Qed.

(** C7, as amended.  In a completed run, when the answer of turn [i] is
    an object in which exactly one member has a key matching [name] and
    exactly one a key matching [kind], these being the members [name]
    and [kind] themselves with string values [n] and [k], and [k]
    differs from the requested kind, then the object is valid for the
    schema, the validator accepts it without error as the record
    [(n, k)], this record is the [i]-th of the batch, and the file
    written holds its row, with [k] unchanged. *)
Theorem C7_drift_preserved (p : Profile) (requested : string) (w : World)
    (tr : list Event) (i : nat) (resps : list ChatResponse)
    (ms : list (string * json)) (n k : string) :
  run (main_of p requested) w = (Done tt, tr) ->
  i < batch_size ->
  chat w i (request_of p requested w) = (resps, None) ->
  parse (jsonResult resps) = Some (JObject ms) ->
  selected FieldName ms = [("name", JString n)] ->
  selected FieldKind ms = [("kind", JString k)] ->
  k <> requested ->
  schema_valid (JObject ms) = true
  /\ Unmarshal (jsonResult resps) zero = ({| Name := n; Kind := k |}, None)
  /\ exists cs before after,
       cs !! i = Some {| Name := n; Kind := k |}
       /\ last tr = Some (write_event requested cs)
       /\ table_text cs
          = before +:+ data_row (Z.of_nat i + 1) n k +:+ String LF after.
Proof.
  intros Hr Hi Hc Hp Hn Hk Hd.
  assert (Unmarshal (jsonResult resps) zero = ({| Name := n; Kind := k |}, None))
    as Hu.
  { unfold Unmarshal. rewrite Hp. cbn [decode_value].
    pose proof (decode_members_single FieldName ms zero None _ _ Hn) as H1.
    pose proof (decode_members_single FieldKind ms zero None _ _ Hk) as H2.
    assert (snd (decode_members ms zero None) = None) as H3.
    { apply decode_members_error. split; [reflexivity|].
      apply forallb_forall. intros [k0 v0] Hin.
      unfold well_typed_member. cbn [fst snd].
      destruct (field_of_key k0) as [f|] eqn:Ef; [|reflexivity].
      assert (In (k0, v0) (selected f ms)) as Hs.
      { apply filter_In. split; [exact Hin|]. now apply selects_iff. }
      destruct f; [rewrite Hn in Hs | rewrite Hk in Hs];
        destruct Hs as [Hs|[]]; injection Hs as <- <-; reflexivity. }
    destruct (decode_members ms zero None) as [[n' k'] e'].
    simpl in *. now subst. }
  assert (answer w (request_of p requested w) i = inr {| Name := n; Kind := k |})
    as Ha.
  { unfold answer. now rewrite Hc, Hu. }
  split; [|split; [exact Hu|]].
  - pose proof (member_selected FieldName ms n Hn) as M1.
    pose proof (member_selected FieldKind ms k Hk) as M2.
    cbn [json_name] in M1, M2. cbn [schema_valid]. now rewrite M1, M2.
  - apply completed_run in Hr as (cs & Hb & ->).
    pose proof (batch_length _ _ _ _ _ Hb) as Hl.
    destruct (lookup_lt_is_Some_2 cs i) as [c Hci]; [lia|].
    pose proof (batch_answers _ _ _ _ _ _ Hb i c Hci) as Ha'.
    cbn [Nat.add] in Ha'. rewrite Ha in Ha'. injection Ha' as <-.
    destruct (table_text_split cs i _ Hci) as (before & after & E).
    exists cs, before, after. repeat split; auto.
    rewrite app_comm_cons, last_snoc. reflexivity.
Qed.

Lemma C7_drift_preserved_witness :
  schema_valid (JObject [("name", JString "Karl"); ("kind", JString "knight")])
  = true
  /\ Unmarshal (jsonResult (fst (reply drift))) zero = (karl, None)
  /\ exists cs before after,
       cs !! 0 = Some karl
       /\ last (snd (run (main_of Minimal kind) drift_world))
          = Some (write_event kind cs)
       /\ table_text cs
          = before +:+ data_row (Z.of_nat 0 + 1) "Karl" "knight"
            +:+ String LF after.
Proof.
  apply (C7_drift_preserved Minimal kind drift_world
           (snd (run (main_of Minimal kind) drift_world)) 0
           (fst (reply drift))
           [("name", JString "Karl"); ("kind", JString "knight")]
           "Karl" "knight").
  - vm_compute. reflexivity.
  - unfold batch_size. lia.
  - vm_compute. reflexivity.
  - vm_compute. reflexivity.
  - vm_compute. reflexivity.
  - vm_compute. reflexivity.
  - discriminate.
Defined.

(** C8.  In the Guided profile the task text is the template
    instantiated with the selected kind, and every chat request of a
    run carries exactly three messages in this order: the system
    message of the persona, the system message of the generation rules
    and the user message of the task.  For [03-generate-names] the task
    reads "Generate a random name for an Dwarf (kind always equals
    Dwarf).". *)
Theorem C8_guided_messages (selected_kind : string) (w : World) :
  Sprintf userContent_format
    [ArgString selected_kind; ArgString selected_kind]
  = Some ("Generate a random name for an " +:+ selected_kind
          +:+ " (kind always equals " +:+ selected_kind +:+ ").")
  /\ requests
       (fun r =>
          Messages r
          = [ {| Role := "system"; Content := systemInstructions |};
              {| Role := "system"; Content := generationInstructions |};
              {| Role := "user";
                 Content := "Generate a random name for an "
                            +:+ selected_kind +:+ " (kind always equals "
                            +:+ selected_kind +:+ ")." |} ])
       (snd (run (main_of Guided selected_kind) w))
  /\ requests
       (fun r =>
          exists persona rules,
            Messages r
            = [ {| Role := "system"; Content := persona |};
                {| Role := "system"; Content := rules |};
                {| Role := "user";
                   Content := "Generate a random name for an Dwarf (kind always equals Dwarf)." |} ])
       (snd (run main03 w)).
Proof.
  split; [reflexivity|]. split.
  - eapply requests_impl; [|apply requests_of_run]. now intros r ->.
  - eapply requests_impl; [|apply requests_of_run]. intros r ->.
    do 2 eexists. reflexivity.
Qed.

(** C9.  A completed run with selected kind [k] performs exactly one
    file write, as its last action: the whole table of the batch, to
    [./characters.<k>.md], with mode 0644, that is read and write for
    the owner and read for the group and for the others. *)
Theorem C9_one_file (p : Profile) (selected_kind : string) (w : World)
    (tr : list Event) :
  run (main_of p selected_kind) w = (Done tt, tr) ->
  exists cs,
    batch w (request_of p selected_kind w) 0 batch_size = (cs, None)
    /\ markdown_table cs = Some (table_text cs)
    /\ List.filter is_write tr
       = [EvWriteFile ("./characters." +:+ selected_kind +:+ ".md")
            (table_text cs) (octal [6; 4; 4]%N)]
    /\ last tr
       = Some (EvWriteFile ("./characters." +:+ selected_kind +:+ ".md")
                 (table_text cs) (octal [6; 4; 4]%N))
    /\ map (N.testbit (octal [6; 4; 4]%N)) [8; 7; 6; 5; 4; 3; 2; 1; 0]%N
       = [true; true; false; true; false; false; true; false; false].
Proof.
  intros H. apply completed_run in H as (cs & Hb & ->).
  exists cs. split; [exact Hb|]. split; [apply markdown_table_spec|].
  split; [|split].
  - change (banner w :: ?l) with ([banner w] ++ l).
    rewrite !List.filter_app, batch_events_no_write. reflexivity.
  - rewrite app_comm_cons, last_snoc. reflexivity.
  - by_evaluation.
Qed.

Lemma C9_one_file_witness :
  exists cs,
    batch elara_world (request_of Minimal kind elara_world) 0 batch_size
    = (cs, None)
    /\ markdown_table cs = Some (table_text cs)
    /\ List.filter is_write (snd (run (main_of Minimal kind) elara_world))
       = [EvWriteFile ("./characters." +:+ kind +:+ ".md")
            (table_text cs) (octal [6; 4; 4]%N)]
    /\ last (snd (run (main_of Minimal kind) elara_world))
       = Some (EvWriteFile ("./characters." +:+ kind +:+ ".md")
                 (table_text cs) (octal [6; 4; 4]%N))
    /\ map (N.testbit (octal [6; 4; 4]%N)) [8; 7; 6; 5; 4; 3; 2; 1; 0]%N
       = [true; true; false; true; false; false; true; false; false].
Proof.
  apply (C9_one_file Minimal kind elara_world).
  vm_compute. reflexivity.
Defined.

(** C10.  A data row is the fixed format filled with the decimal index
    and the bytes of the name and of the kind, unchanged; the table of
    a batch holds that row for each of its records; the file has as
    many lines as records plus two plus the newlines found in names and
    kinds, hence more than [length + 2] lines as soon as a field holds
    a newline. *)
Theorem C10_rows_verbatim (cs : list Character) :
  (forall index name kind,
      Sprintf row_format [ArgInt index; ArgString name; ArgString kind]
      = Some ("| " +:+ decimal index +:+ "   | " +:+ name +:+ "      | "
              +:+ kind +:+ "       |" +:+ nl))
  /\ markdown_table cs = Some (table_text cs)
  /\ (forall i c,
        cs !! i = Some c ->
        exists before after,
          table_text cs
          = before
            +:+ ("| " +:+ decimal (Z.of_nat i + 1) +:+ "   | " +:+ Name c
                 +:+ "      | " +:+ Kind c +:+ "       |")
            +:+ String LF after)
  /\ length (lines (table_text cs)) = length cs + 2 + field_newlines cs
  /\ (Exists (fun c => 0 < newlines (Name c) + newlines (Kind c)) cs ->
      length cs + 2 < length (lines (table_text cs))).
Proof.
  split; [intros; reflexivity|].
  split; [apply markdown_table_spec|].
  split; [intros i c H; apply (table_text_split cs i c H)|].
  split; [apply table_text_length|].
  intros H. rewrite table_text_length.
  pose proof (field_newlines_pos cs H). lia.
Qed.

(** * Further properties of the programs *)

Import Observe.

Module MoreFacts.

Section Turns.

Variable w : World.
Variable req : ChatRequest.

(** The batch succeeds exactly when each of its turns does. *)
Lemma batch_success (n : nat) :
  forall i,
    (forall m, m < n -> exists c, answer w req (i + m) = inr c) ->
    exists cs, batch w req i n = (cs, None).
Proof.
  induction n as [|n IH]; intros i H; cbn [batch]; [eauto|].
  destruct (H 0 ltac:(lia)) as [c Hc]. rewrite Nat.add_0_r in Hc. rewrite Hc.
  destruct (IH (S i)) as [cs Hcs].
  { intros m Hm. replace (S i + m) with (i + S m) by lia. apply H. lia. }
  rewrite Hcs. eauto.
Qed.

Lemma batch_none_turns (n : nat) :
  forall i cs,
    batch w req i n = (cs, None) ->
    forall m, m < n -> exists c, answer w req (i + m) = inr c.
Proof.
  intros i cs H m Hm.
  pose proof (batch_length w req n i cs H) as Hl.
  destruct (lookup_lt_is_Some_2 cs m) as [c Hc]; [lia|].
  exists c. apply (batch_answers w req n i cs None H m c Hc).
Qed.

Lemma batch_records_bound (n : nat) :
  forall i cs e,
    batch w req i n = (cs, e) ->
    length cs + match e with Some _ => 1 | None => 0 end <= n.
Proof.
  induction n as [|n IH]; intros i cs e H; cbn [batch] in H.
  - injection H as <- <-. cbn. lia.
  - destruct (answer w req i) as [err|c].
    + injection H as <- <-. cbn. lia.
    + destruct (batch w req (S i) n) as [cs' e'] eqn:E.
      injection H as <- <-. specialize (IH _ _ _ E). cbn [length]. lia.
Qed.

End Turns.

Lemma batch_events_no_fatal (req : ChatRequest) (cs : list Character) :
  List.filter is_fatal (batch_events req cs None) = [].
Proof.
  unfold batch_events. rewrite app_nil_r.
  induction cs as [|c cs IH]; cbn; auto.
Qed.

Lemma batch_events_failed (req : ChatRequest) (cs : list Character)
    (e : error) :
  batch_events req cs (Some e)
  = (batch_events req cs None ++ [EvChat req]) ++ [EvFatal e].
Proof.
  unfold batch_events. rewrite app_nil_r, <- app_assoc. reflexivity.
Qed.

Lemma stdout_texts_app (tr tr' : list Event) :
  stdout_texts (tr ++ tr') = stdout_texts tr ++ stdout_texts tr'.
Proof.
  induction tr as [|[] tr IH]; cbn [stdout_texts app]; auto.
  now rewrite IH.
Qed.

Lemma Sprintln_pair (a b : string) :
  Sprintln [a; b] = a +:+ " " +:+ b +:+ nl.
Proof. unfold Sprintln. cbn [join]. now rewrite !append_assoc. Qed.

Lemma batch_events_stdout (req : ChatRequest) (cs : list Character)
    (e : option error) :
  stdout_texts (batch_events req cs e) = map record_line cs.
Proof.
  unfold batch_events. rewrite stdout_texts_app.
  assert (stdout_texts (match e with
                        | Some e0 => [EvChat req; EvFatal e0]
                        | None => []
                        end) = []) as -> by now destruct e.
  rewrite app_nil_r.
  induction cs as [|c cs IH]; [reflexivity|].
  cbn [flat_map map]. rewrite stdout_texts_app, IH.
  cbn [turn_events stdout_texts app]. now rewrite Sprintln_pair.
Qed.

Lemma batch_events_local (req : ChatRequest) (cs : list Character)
    (e : option error) :
  local_events (batch_events req cs e)
  = map (fun c => EvStdout (Sprintln [Name c; Kind c])) cs
    ++ match e with Some e0 => [EvFatal e0] | None => [] end.
Proof.
  unfold batch_events, local_events. rewrite List.filter_app.
  f_equal; [|now destruct e].
  induction cs as [|c cs IH]; [reflexivity|].
  cbn [flat_map map]. rewrite List.filter_app, IH. reflexivity.
Qed.

Lemma fold_last {A B} (f : A -> B) (l : list A) (b : B) :
  fold_left (fun _ x => f x) l b
  = match last l with
    | Some x => f x
    | None => b
    end.
Proof.
  revert b. induction l as [|x l IH]; intros b; [reflexivity|].
  cbn [fold_left]. rewrite IH. destruct l as [|y l]; [reflexivity|].
  change (last (x :: y :: l)) with (last (y :: l)).
  destruct (last (y :: l)) eqn:E; [reflexivity|].
  apply last_None in E. discriminate.
Qed.

End MoreFacts.

Import MoreFacts.

(** X1.  A run ends in one of two ways, exit code 0 or exit code 1, and
    it ends with exit code 0 exactly when the client could be built,
    each of the fifteen turns gave a record, and the file system
    accepted the table of these records. *)
Theorem X1_exit_code (p : Profile) (selected_kind : string) (w : World) :
  (fst (run (main_of p selected_kind) w) = Done tt
   \/ fst (run (main_of p selected_kind) w) = Exited 1%Z)
  /\ (fst (run (main_of p selected_kind) w) = Done tt
      <-> client_error w = None
          /\ (forall i, i < batch_size ->
                exists c, answer w (request_of p selected_kind w) i = inr c)
          /\ write_file w (file_name selected_kind)
               (table_text (records p selected_kind w)) (octal [6; 4; 4]%N)
             = None).
Proof.
  rewrite main_spec. unfold records.
  destruct (client_error w) as [m|].
  { cbn [fst]. split; [now right|]. split; [discriminate|].
    intros (H & _). discriminate. }
  cbv zeta.
  destruct (batch w (request_of p selected_kind w) 0 batch_size)
    as [cs [e|]] eqn:Eb; cbn [fst].
  - split; [now right|]. split; [discriminate|].
    intros (_ & H & _).
    destruct (batch_success w (request_of p selected_kind w) batch_size 0 H)
      as [cs' Hcs']. congruence.
  - destruct (write_file w _ _ _) as [m|] eqn:Ew; cbn [fst].
    + split; [now right|]. split; [discriminate|].
      intros (_ & _ & H). discriminate.
    + split; [now left|]. split; [|reflexivity].
      intros _. split; [reflexivity|]. split; [|reflexivity].
      intros i Hi.
      apply (batch_none_turns w (request_of p selected_kind w) batch_size 0
               cs Eb i Hi).
Qed.

(** X2.  [log.Fatal] ends the process: a run that exits does so with
    code 1, and its trace ends with the one fatal message of the run;
    a run that completes shows no fatal message.  No run leaves the
    modelled fragment of [fmt] and [encoding/json]. *)
Theorem X2_fatal_is_final (p : Profile) (selected_kind : string)
    (w : World) :
  match run (main_of p selected_kind) w with
  | (Done _, tr) => List.filter is_fatal tr = []
  | (Exited code, tr) =>
      code = 1%Z
      /\ exists tr' e,
           tr = tr' ++ [EvFatal e] /\ List.filter is_fatal tr' = []
  | (Stuck, _) => False
  end.
Proof.
  rewrite main_spec. destruct (client_error w) as [m|].
  { split; [reflexivity|]. exists [banner w], (ExternalError m). now split. }
  cbv zeta.
  destruct (batch w (request_of p selected_kind w) 0 batch_size)
    as [cs [e|]].
  - split; [reflexivity|].
    exists (banner w :: batch_events (request_of p selected_kind w) cs None
            ++ [EvChat (request_of p selected_kind w)]), e.
    split.
    + rewrite batch_events_failed. reflexivity.
    + change (banner w :: ?l) with ([banner w] ++ l).
      rewrite !List.filter_app, batch_events_no_fatal. reflexivity.
  - destruct (write_file w _ _ _) as [m|].
    + split; [reflexivity|]. do 2 eexists. split; [reflexivity|].
      change (banner w :: ?l) with ([banner w] ++ l).
      rewrite !List.filter_app, batch_events_no_fatal. reflexivity.
    + change (banner w :: ?l) with ([banner w] ++ l).
      rewrite !List.filter_app, batch_events_no_fatal. reflexivity.
Qed.

(** X3.  A run issues at most fifteen chat requests and a completed run
    exactly fifteen.  All of them are the same request: the value of
    [LLM] as [os.Getenv] gives it, untrimmed, as model, the messages of
    the profile, the options, the marshalled schema and the streaming
    flag; no answer of the endpoint changes a later request. *)
Theorem X3_requests (p : Profile) (selected_kind : string) (w : World) :
  match fst (run (main_of p selected_kind) w) with
  | Done _ => chat_calls (snd (run (main_of p selected_kind) w)) = batch_size
  | _ => chat_calls (snd (run (main_of p selected_kind) w)) <= batch_size
  end
  /\ requests
       (fun r =>
          r = {| Model := default EmptyString (environ w !! "LLM");
                 Messages := messages p (user_text selected_kind);
                 Options := options;
                 Format := jsonModel;
                 Stream := Some false |})
       (snd (run (main_of p selected_kind) w)).
Proof.
  split; [|exact (requests_of_run p selected_kind w)].
  rewrite main_spec. destruct (client_error w) as [m|].
  { cbn [fst snd].
    change (chat_calls [banner w; EvFatal (ExternalError m)]) with 0. lia. }
  cbv zeta.
  destruct (batch w (request_of p selected_kind w) 0 batch_size)
    as [cs [e|]] eqn:Eb.
  - cbn [fst snd]. change (banner w :: ?l) with ([banner w] ++ l).
    rewrite chat_calls_app, batch_events_chat_calls.
    change (chat_calls [banner w]) with 0.
    pose proof (batch_records_bound _ _ _ _ _ _ Eb) as Hb.
    cbn [length] in *. lia.
  - pose proof (batch_length _ _ _ _ _ Eb) as Hl.
    assert (chat_calls (banner w
                        :: batch_events (request_of p selected_kind w) cs None)
            = batch_size) as Hc.
    { change (banner w :: ?l) with ([banner w] ++ l).
      rewrite chat_calls_app, batch_events_chat_calls, Hl.
      change (chat_calls [banner w]) with 0. lia. }
    destruct (write_file w _ _ _) as [m|]; cbn [fst snd];
      rewrite !chat_calls_app, Hc;
      [change (chat_calls [EvFatal (ExternalError m)]) with 0|];
      change (chat_calls [write_event selected_kind cs]) with 0; lia.
Qed.

(** X4.  When the fifteen turns gave records but [os.WriteFile] fails,
    the run exits with code 1 after the fifteen requests and the
    fifteen printed lines: the write of the whole table was attempted
    once, and the last event is the fatal message of its error. *)
Theorem X4_write_failure (p : Profile) (selected_kind : string) (w : World)
    (m : string) :
  client_error w = None ->
  (forall i, i < batch_size ->
     exists c, answer w (request_of p selected_kind w) i = inr c) ->
  write_file w (file_name selected_kind)
    (table_text (records p selected_kind w)) (octal [6; 4; 4]%N) = Some m ->
  exists tr,
    run (main_of p selected_kind) w
    = (Exited 1%Z,
       tr ++ [write_event selected_kind (records p selected_kind w);
              EvFatal (ExternalError m)])
    /\ chat_calls tr = batch_size
    /\ List.filter is_write tr = []
    /\ length (records p selected_kind w) = batch_size.
Proof.
  intros Hc Ht Hw. unfold records in *.
  destruct (batch_success w (request_of p selected_kind w) batch_size 0 Ht)
    as [cs Hb].
  rewrite main_spec, Hc. cbv zeta. rewrite Hb in *. cbn [fst] in *.
  rewrite Hw.
  exists (banner w :: batch_events (request_of p selected_kind w) cs None).
  pose proof (batch_length _ _ _ _ _ Hb) as Hl.
  split; [|split; [|split]].
  - now rewrite <- app_assoc.
  - change (banner w :: ?l) with ([banner w] ++ l).
    rewrite chat_calls_app, batch_events_chat_calls, Hl.
    change (chat_calls [banner w]) with 0. lia.
  - change (banner w :: ?l) with ([banner w] ++ l).
    rewrite List.filter_app, batch_events_no_write. reflexivity.
  - exact Hl.
Qed.

Lemma X4_write_failure_witness :
  exists tr,
    run (main_of Minimal kind) (read_only elara_world)
    = (Exited 1%Z,
       tr ++ [write_event kind (records Minimal kind (read_only elara_world));
              EvFatal (ExternalError "permission denied")])
    /\ chat_calls tr = batch_size
    /\ List.filter is_write tr = []
    /\ length (records Minimal kind (read_only elara_world)) = batch_size.
Proof.
  apply (X4_write_failure Minimal kind (read_only elara_world)
           "permission denied").
  - reflexivity.
  - intros i Hi. exists elara.
    do 15 (destruct i as [|i]; [vm_compute; reflexivity|]).
    unfold batch_size in Hi. lia.
  - vm_compute. reflexivity.
Defined.

(** X5.  What a run prints: first the line of the two environment
    values, between the two emoji and separated by spaces, then, if the
    client was built, one line per record, name and kind separated by a
    space, in the order of the turns, up to the first failing turn. *)
Theorem X5_stdout (p : Profile) (selected_kind : string) (w : World) :
  stdout_texts (snd (run (main_of p selected_kind) w))
  = ("🌍 " +:+ default EmptyString (environ w !! "OLLAMA_HOST")
     +:+ " 📕 " +:+ default EmptyString (environ w !! "LLM") +:+ nl)
    :: match client_error w with
       | Some _ => []
       | None => map record_line (records p selected_kind w)
       end.
Proof.
  assert (banner w
          = EvStdout
              ("🌍 " +:+ default EmptyString (environ w !! "OLLAMA_HOST")
               +:+ " 📕 " +:+ default EmptyString (environ w !! "LLM")
               +:+ nl)) as Hbanner.
  { unfold banner, getenv, Sprintln. cbn [join].
    now rewrite !append_assoc. }
  rewrite main_spec. unfold records.
  destruct (client_error w) as [m|].
  { cbn [snd]. rewrite Hbanner. reflexivity. }
  cbv zeta.
  destruct (batch w (request_of p selected_kind w) 0 batch_size)
    as [cs e] eqn:Eb.
  assert (stdout_texts
            (banner w :: batch_events (request_of p selected_kind w) cs e)
          = ("🌍 " +:+ default EmptyString (environ w !! "OLLAMA_HOST")
             +:+ " 📕 " +:+ default EmptyString (environ w !! "LLM") +:+ nl)
            :: map record_line cs) as Hs.
  { rewrite Hbanner. cbn [stdout_texts].
    now rewrite batch_events_stdout. }
  destruct e as [e|]; cbn [fst snd]; [exact Hs|].
  destruct (write_file w _ _ _) as [m|]; cbn [snd];
    rewrite !stdout_texts_app, Hs; cbn [stdout_texts write_event];
    now rewrite ?app_nil_r.
Qed.

(** X6.  One turn, read off [generateName] and the loop body: an error
    of [Chat] is fatal whatever the responses were; without error the
    content that counts is that of the last response the callback saw,
    so that no response at all gives the empty text, which is not JSON;
    a rejected content is fatal; an accepted one is printed and
    returned. *)
Theorem X6_turn (req : ChatRequest) (w : World) (tr : list Event) :
  iteration req w tr
  = match chat w (chat_calls tr) req with
    | (_, Some m) =>
        (Exited 1%Z, tr ++ [EvChat req; EvFatal (ExternalError m)])
    | (resps, None) =>
        match last resps with
        | None =>
            (Exited 1%Z, tr ++ [EvChat req; EvFatal (JsonError SyntaxError)])
        | Some r =>
            match Unmarshal (Content (Msg r)) zero with
            | (_, Some e) =>
                (Exited 1%Z, tr ++ [EvChat req; EvFatal (JsonError e)])
            | (c, None) =>
                (Done c, tr ++ [EvChat req; EvStdout (record_line c)])
            end
        end
    end.
Proof.
  rewrite iteration_spec. unfold answer.
  destruct (chat w (chat_calls tr) req) as [resps [m|]]; [reflexivity|].
  unfold jsonResult. rewrite fold_last.
  destruct (last resps) as [r|].
  - destruct (Unmarshal (Content (Msg r)) zero) as [c [e|]]; [reflexivity|].
    unfold turn_events, record_line. now rewrite Sprintln_pair.
  - reflexivity.
Qed.

(** X7.  The two programs differ in their messages only: when the
    endpoint answers both requests alike, [02-generate-names] and
    [03-generate-names] end the same way, after the same number of
    requests, and print and write the same. *)
Theorem X7_profiles_agree (selected_kind : string) (w : World) :
  (forall i, chat w i (request_of Minimal selected_kind w)
             = chat w i (request_of Guided selected_kind w)) ->
  fst (run (main_of Minimal selected_kind) w)
  = fst (run (main_of Guided selected_kind) w)
  /\ chat_calls (snd (run (main_of Minimal selected_kind) w))
     = chat_calls (snd (run (main_of Guided selected_kind) w))
  /\ local_events (snd (run (main_of Minimal selected_kind) w))
     = local_events (snd (run (main_of Guided selected_kind) w)).
Proof.
  intros H.
  assert (forall n i,
             batch w (request_of Minimal selected_kind w) i n
             = batch w (request_of Guided selected_kind w) i n) as Hb.
  { induction n as [|n IH]; intros i; cbn [batch]; [reflexivity|].
    unfold answer. rewrite H, IH. reflexivity. }
  rewrite !main_spec. destruct (client_error w) as [m|].
  { repeat split. }
  cbv zeta. rewrite Hb.
  destruct (batch w (request_of Guided selected_kind w) 0 batch_size)
    as [cs e].
  assert (forall r r' : ChatRequest,
             chat_calls (banner w :: batch_events r cs e)
             = chat_calls (banner w :: batch_events r' cs e)) as Hc.
  { intros r r'. change (banner w :: ?l) with ([banner w] ++ l).
    now rewrite !chat_calls_app, !batch_events_chat_calls. }
  assert (forall r r' : ChatRequest,
             local_events (banner w :: batch_events r cs e)
             = local_events (banner w :: batch_events r' cs e)) as Hl.
  { intros r r'. change (banner w :: ?l) with ([banner w] ++ l).
    unfold local_events. rewrite !List.filter_app.
    fold (local_events (batch_events r cs e)).
    fold (local_events (batch_events r' cs e)).
    now rewrite !batch_events_local. }
  destruct e as [e|]; cbn [fst snd].
  - split; [reflexivity|]. split; [apply Hc | apply Hl].
  - destruct (write_file w _ _ _) as [m|]; cbn [fst snd];
      (split; [reflexivity|]); split.
    + rewrite !chat_calls_app.
      now rewrite (Hc _ (request_of Guided selected_kind w)).
    + unfold local_events in *. rewrite !List.filter_app.
      now rewrite (Hl _ (request_of Guided selected_kind w)).
    + rewrite !chat_calls_app.
      now rewrite (Hc _ (request_of Guided selected_kind w)).
    + unfold local_events in *. rewrite !List.filter_app.
      now rewrite (Hl _ (request_of Guided selected_kind w)).
Qed.

Lemma X7_profiles_agree_witness :
  fst (run (main_of Minimal kind) elara_world)
  = fst (run (main_of Guided kind) elara_world)
  /\ chat_calls (snd (run (main_of Minimal kind) elara_world))
     = chat_calls (snd (run (main_of Guided kind) elara_world))
  /\ local_events (snd (run (main_of Minimal kind) elara_world))
     = local_events (snd (run (main_of Guided kind) elara_world)).
Proof.
  apply (X7_profiles_agree kind elara_world). intros i. reflexivity.
Defined.

(** X8.  Every request of [02-generate-names] carries exactly two
    messages, the system message of the persona and the user message of
    the task; the request of [03-generate-names] is the same request
    with the system message of the generation rules put between the
    two. *)
Theorem X8_minimal_messages (selected_kind : string) (w : World) :
  requests
    (fun r =>
       Messages r
       = [ {| Role := "system"; Content := systemInstructions |};
           {| Role := "user";
              Content := "Generate a random name for an " +:+ selected_kind
                         +:+ " (kind always equals " +:+ selected_kind
                         +:+ ")." |} ])
    (snd (run (main_of Minimal selected_kind) w))
  /\ requests
       (fun r =>
          exists persona task,
            Messages (request_of Minimal selected_kind w) = [persona; task]
            /\ r = {| Model := Model (request_of Minimal selected_kind w);
                      Messages :=
                        [persona;
                         {| Role := "system";
                            Content := generationInstructions |};
                         task];
                      Options := Options (request_of Minimal selected_kind w);
                      Format := Format (request_of Minimal selected_kind w);
                      Stream := Stream (request_of Minimal selected_kind w) |})
       (snd (run (main_of Guided selected_kind) w)).
Proof.
  split.
  - eapply requests_impl; [|apply requests_of_run]. now intros r ->.
  - eapply requests_impl; [|apply requests_of_run]. intros r ->.
    do 2 eexists. split; reflexivity.
Qed.

Module RoundTrip.

Import Bytes Json GoJson.

Lemma lex_literal (s : string) :
  forall us toks rest,
    literal s = true ->
    lex_from (LexString us) toks (s +:+ rest)
    = lex_from (LexString (rev (units_of s) ++ us)) toks rest.
Proof.
  induction s as [|c s IH]; intros us toks rest H; [reflexivity|].
  cbn [literal] in H. apply andb_true_iff in H as [Hc Hs].
  unfold literal_byte in Hc.
  apply andb_true_iff in Hc as [Hc H92].
  apply andb_true_iff in Hc as [H32 H34].
  apply negb_true_iff in H34, H92.
  apply N.leb_le in H32.
  cbn [String.append lex_from lex_step]. rewrite H34, H92.
  destruct (N.ltb_spec (code c) 32) as [Hlt|_]; [lia|].
  rewrite IH by exact Hs. cbn [units_of rev].
  now rewrite <- app_assoc.
Qed.

Lemma lex_quoted (s : string) (toks : list token) (rest : string) :
  literal s = true ->
  lex_from LexValue toks (quoted s +:+ rest)
  = lex_from LexValue (TString (units_of s) :: toks) rest.
Proof.
  intros H. unfold quoted, GoMarshal.quote.
  rewrite !append_assoc.
  change (of_codes [34%N] +:+ rest) with (String (byte_of 34) rest).
  change (of_codes [34%N] +:+ ?x) with (String (byte_of 34) x).
  change (lex_from LexValue toks (String (byte_of 34) ?x))
    with (lex_from (LexString []) toks x).
  rewrite lex_literal by exact H.
  change (lex_from (LexString ?u) toks (String (byte_of 34) rest))
    with (lex_from LexValue (TString (rev u) :: toks) rest).
  now rewrite app_nil_r, rev_involutive.
Qed.

Lemma high_literal (c : ascii) :
  (code c <? 128)%N = false -> literal_byte c = true.
Proof.
  intros H. apply N.ltb_ge in H. unfold literal_byte.
  destruct (N.leb_spec 32 (code c)) as [_|H']; [|lia].
  destruct (N.eqb_spec (code c) 34) as [H'|_]; [lia|].
  destruct (N.eqb_spec (code c) 92) as [H'|_]; [lia|reflexivity].
Qed.

Lemma second_high (c0 c1 : ascii) :
  second_ok c0 c1 = true -> (code c1 <? 128)%N = false.
Proof.
  unfold second_ok, Utf.lead, between.
  repeat match goal with
         | |- match (if ?b then _ else _) with _ => _ end = _ -> _ =>
             destruct b
         end;
    intros H; try discriminate;
    apply andb_true_iff in H as [H _]; apply N.leb_le in H;
    apply N.ltb_ge; lia.
Qed.

Lemma continuation_high (c : ascii) :
  Utf.continuation c = true -> (code c <? 128)%N = false.
Proof.
  unfold Utf.continuation, between. intros H.
  apply andb_true_iff in H as [H _]. apply N.leb_le in H.
  apply N.ltb_ge. lia.
Qed.

(** A clean text holds literal bytes only. *)
Lemma clean_literal_bounded (n : nat) :
  forall s, String.length s <= n -> clean s = true -> literal s = true.
Proof.
  induction n as [|n IH]; intros s Hl H.
  - destruct s; [reflexivity | cbn in Hl; lia].
  - destruct s as [|c0 rest]; [reflexivity|].
    cbn [String.length] in Hl. cbn [clean] in H. cbn [literal].
    destruct (code c0 <? 128)%N eqn:E0.
    + apply andb_true_iff in H as [H0 Hr]. rewrite H0. apply IH; [lia|auto].
    + rewrite (high_literal c0 E0). cbn [andb].
      destruct rest as [|c1 rest1]; [discriminate|].
      cbn [String.length] in Hl.
      apply andb_true_iff in H as [H1 H]. cbn [literal].
      rewrite (high_literal c1 (second_high c0 c1 H1)). cbn [andb].
      destruct (Json.lead_len c0 =? 2)%nat; [apply IH; [lia|auto]|].
      destruct rest1 as [|c2 rest2]; [discriminate|].
      cbn [String.length] in Hl.
      apply andb_true_iff in H as [H2 H]. cbn [literal].
      rewrite (high_literal c2 (continuation_high c2 H2)). cbn [andb].
      destruct (Json.lead_len c0 =? 3)%nat; [apply IH; [lia|auto]|].
      destruct rest2 as [|c3 rest3]; [discriminate|].
      cbn [String.length] in Hl.
      apply andb_true_iff in H as [H3 H]. cbn [literal].
      rewrite (high_literal c3 (continuation_high c3 H3)). cbn [andb].
      apply IH; [lia|auto].
Qed.

Lemma clean_literal (s : string) : clean s = true -> literal s = true.
Proof. apply (clean_literal_bounded (String.length s)). lia. Qed.

(** A clean text is the content of the string literal made of its
    bytes. *)
Lemma unquote_clean_bounded (n : nat) :
  forall s, String.length s <= n -> clean s = true ->
            unquote (units_of s) = s.
Proof.
  induction n as [|n IH]; intros s Hl H.
  - destruct s; [reflexivity | cbn in Hl; lia].
  - destruct s as [|c0 rest]; [reflexivity|].
    cbn [String.length] in Hl. cbn [clean] in H.
    destruct (code c0 <? 128)%N eqn:E0.
    + apply andb_true_iff in H as [_ Hr].
      cbn [units_of unquote]. rewrite E0. f_equal. apply IH; [lia|auto].
    + destruct rest as [|c1 rest1]; [discriminate|].
      cbn [String.length] in Hl.
      apply andb_true_iff in H as [H1 H].
      cbn [units_of unquote]. rewrite E0, H1.
      destruct (Json.lead_len c0 =? 2)%nat.
      { do 2 f_equal. apply IH; [lia|auto]. }
      destruct rest1 as [|c2 rest2]; [discriminate|].
      cbn [String.length] in Hl.
      apply andb_true_iff in H as [H2 H].
      cbn [units_of]. rewrite H2.
      destruct (Json.lead_len c0 =? 3)%nat.
      { do 3 f_equal. apply IH; [lia|auto]. }
      destruct rest2 as [|c3 rest3]; [discriminate|].
      cbn [String.length] in Hl.
      apply andb_true_iff in H as [H3 H].
      cbn [units_of]. rewrite H3.
      do 4 f_equal. apply IH; [lia|auto].
Qed.

Lemma unquote_units (s : string) :
  clean s = true -> unquote (units_of s) = s.
Proof. apply (unquote_clean_bounded (String.length s)). lia. Qed.

Lemma object_text_shape (a b c d : string) :
  "{" +:+ (a +:+ ":" +:+ b) +:+ "," +:+ (c +:+ ":" +:+ d) +:+ "}"
  = String "{" (a +:+ String ":" (b +:+ String ","
                  (c +:+ String ":" (d +:+ "}")))).
Proof. rewrite !append_assoc. reflexivity. Qed.

Lemma parse_pair_tokens (u1 u2 u3 u4 : list strunit) :
  parse_tokens [TLBrace; TString u1; TColon; TString u2; TComma;
                TString u3; TColon; TString u4; TRBrace]
  = Some (JObject [(unquote u1, JString (unquote u2));
                   (unquote u3, JString (unquote u4))]).
Proof. reflexivity. Qed.

Lemma parse_object_text (n k : string) :
  clean n = true -> clean k = true ->
  parse (object_text n k)
  = Some (JObject [("name", JString n); ("kind", JString k)]).
Proof.
  intros Hn Hk. unfold parse, lex, object_text, member_text.
  rewrite object_text_shape.
  change (lex_from LexValue [] (String "{" ?x))
    with (lex_from LexValue [TLBrace] x).
  rewrite lex_quoted by reflexivity.
  change (lex_from LexValue ?t (String ":" ?x))
    with (lex_from LexValue (TColon :: t) x).
  rewrite lex_quoted by (apply clean_literal; exact Hn).
  change (lex_from LexValue ?t (String "," ?x))
    with (lex_from LexValue (TComma :: t) x).
  rewrite lex_quoted by reflexivity.
  change (lex_from LexValue ?t (String ":" ?x))
    with (lex_from LexValue (TColon :: t) x).
  rewrite lex_quoted by (apply clean_literal; exact Hk).
  cbn [lex_from lex_step].
  change (lex_start "}" ?t) with (Some (LexValue, TRBrace :: t)).
  cbn [lex_eof rev app].
  rewrite parse_pair_tokens.
  rewrite (unquote_units n Hn), (unquote_units k Hk).
  reflexivity.
Qed.

Lemma unmarshal_object_text (n k : string) (c0 : Character) :
  clean n = true -> clean k = true ->
  Unmarshal (object_text n k) c0 = ({| Name := n; Kind := k |}, None).
Proof.
  intros Hn Hk. unfold Unmarshal.
  rewrite (parse_object_text n k Hn Hk). reflexivity.
Qed.

End RoundTrip.

(** X9.  Round trip of a well-formed response: for a name and a kind
    that are well-formed UTF-8 without control characters, double quote
    and backslash, the text [{"name":"<name>","kind":"<kind>"}] is
    accepted and decoded to the record of that name and that kind,
    byte for byte, whatever the record held before. *)
Theorem X9_response_round_trip (name kind_text : string) (c0 : Character) :
  clean name = true ->
  clean kind_text = true ->
  Unmarshal (object_text name kind_text) c0
  = ({| Name := name; Kind := kind_text |}, None).
Proof.
  intros Hn Hk. now apply RoundTrip.unmarshal_object_text.
Qed.

Lemma X9_response_round_trip_witness :
  Unmarshal (object_text "Éowyn" "Human") zero
  = ({| Name := "Éowyn"; Kind := "Human" |}, None).
Proof.
  apply (X9_response_round_trip "Éowyn" "Human" zero); reflexivity.
Defined.

Module BatchFacts.

Lemma batch_map (w : World) (req : ChatRequest) (f : nat -> Character)
    (n : nat) :
  forall i,
    (forall m, m < n -> answer w req (i + m) = inr (f (i + m))) ->
    batch w req i n = (map f (seq i n), None).
Proof.
  induction n as [|n IH]; intros i H; cbn [batch seq map]; [reflexivity|].
  pose proof (H 0 ltac:(lia)) as H0. rewrite Nat.add_0_r in H0. rewrite H0.
  rewrite IH; [reflexivity|].
  intros m Hm. replace (S i + m) with (i + S m) by lia. apply H. lia.
Qed.

Lemma literal_newlines (s : string) : literal s = true -> newlines s = 0.
Proof.
  induction s as [|c s IH]; intros H; [reflexivity|].
  cbn [literal] in H. apply andb_true_iff in H as [Hc Hs].
  cbn [newlines]. rewrite (IH Hs).
  unfold literal_byte in Hc.
  apply andb_true_iff in Hc as [Hc _].
  apply andb_true_iff in Hc as [H32 _]. apply N.leb_le in H32.
  unfold is_LF, Bytes.eqb_ascii.
  destruct (Ascii.eqb_spec c Bytes.LF) as [->|]; [|reflexivity].
  vm_compute in H32. now destruct H32.
Qed.

Lemma clean_newlines (s : string) : clean s = true -> newlines s = 0.
Proof. intros H. now apply literal_newlines, RoundTrip.clean_literal. Qed.

Lemma field_newlines_map (f : nat -> Character) (l : list nat) :
  (forall i, In i l ->
     clean (Name (f i)) = true /\ clean (Kind (f i)) = true) ->
  field_newlines (map f l) = 0.
Proof.
  induction l as [|i l IH]; intros H; [reflexivity|].
  cbn [map field_newlines].
  destruct (H i (or_introl eq_refl)) as [Hn Hk].
  rewrite (clean_newlines _ Hn), (clean_newlines _ Hk), IH; [reflexivity|].
  intros j Hj. apply H. now right.
Qed.

Lemma row_lines_map (f : nat -> Character) (n : nat) :
  forall i,
    row_lines (Z.of_nat i) (map f (seq i n))
    = map (fun j => data_row (Z.of_nat j + 1) (Name (f j)) (Kind (f j)))
        (seq i n).
Proof.
  induction n as [|n IH]; intros i; cbn [seq map row_lines]; [reflexivity|].
  f_equal. rewrite <- IH. f_equal. lia.
Qed.

End BatchFacts.

(** X10.  A whole run on well-formed answers: when the client is built,
    the content of turn [i] is [{"name":"<names i>","kind":"<kinds i>"}]
    with names and kinds that are well-formed UTF-8 without control
    characters, double quote and backslash, and the write succeeds, the
    run completes; its last action writes a file of exactly seventeen
    lines: the header, the separator, and for each turn, in order, the
    row of its index, name and kind.  Equal answers give equal rows:
    nothing is deduplicated. *)
Theorem X10_run_on_pairs (p : Profile) (selected_kind : string) (w : World)
    (names kinds : nat -> string) :
  client_error w = None ->
  (forall i, i < batch_size ->
     exists resps,
       chat w i (request_of p selected_kind w) = (resps, None)
       /\ jsonResult resps = object_text (names i) (kinds i)
       /\ clean (names i) = true /\ clean (kinds i) = true) ->
  write_file w (file_name selected_kind)
    (table_text (map (pair_at names kinds) (seq 0 batch_size)))
    (octal [6; 4; 4]%N) = None ->
  (exists tr,
     run (main_of p selected_kind) w
     = (Done tt,
        tr ++ [EvWriteFile (file_name selected_kind)
                 (table_text (map (pair_at names kinds) (seq 0 batch_size)))
                 (octal [6; 4; 4]%N)]))
  /\ lines (table_text (map (pair_at names kinds) (seq 0 batch_size)))
     = header_line :: separator_line
       :: map (fun i => data_row (Z.of_nat i + 1) (names i) (kinds i))
            (seq 0 batch_size).
Proof.
  intros Hc Ht Hw.
  assert (batch w (request_of p selected_kind w) 0 batch_size
          = (map (pair_at names kinds) (seq 0 batch_size), None)) as Hb.
  { apply BatchFacts.batch_map. intros m Hm. cbn [Nat.add].
    destruct (Ht m Hm) as (resps & Hr & Hj & Hn & Hk).
    unfold answer. rewrite Hr, Hj.
    now rewrite (RoundTrip.unmarshal_object_text _ _ zero Hn Hk). }
  split.
  - rewrite main_spec, Hc. cbv zeta. rewrite Hb, Hw.
    eexists. reflexivity.
  - rewrite table_text_lines.
    + pose proof (BatchFacts.row_lines_map (pair_at names kinds) batch_size 0)
        as Hrows.
      change (Z.of_nat 0) with 0%Z in Hrows. now rewrite Hrows.
    + apply BatchFacts.field_newlines_map. intros i Hi.
      apply in_seq in Hi.
      destruct (Ht i ltac:(lia)) as (_ & _ & _ & Hn & Hk). now split.
Qed.

Lemma X10_run_on_pairs_witness :
  (exists tr,
     run (main_of Minimal kind) elara_world
     = (Done tt,
        tr ++ [EvWriteFile (file_name kind)
                 (table_text
                    (map (pair_at (fun _ => "Elara") (fun _ => "Elf"))
                       (seq 0 batch_size)))
                 (octal [6; 4; 4]%N)]))
  /\ lines (table_text
              (map (pair_at (fun _ => "Elara") (fun _ => "Elf"))
                 (seq 0 batch_size)))
     = header_line :: separator_line
       :: map (fun i => data_row (Z.of_nat i + 1) "Elara" "Elf")
            (seq 0 batch_size).
Proof.
  apply (X10_run_on_pairs Minimal kind elara_world
           (fun _ => "Elara") (fun _ => "Elf")).
  - reflexivity.
  - intros i Hi. eexists. repeat split; reflexivity.
  - reflexivity.
Defined.

Module MemberFacts.

Import Bytes Json GoJson.

(** Decoding a list of members in two parts. *)
Lemma decode_members_app (ms1 ms2 : list (string * json)) :
  forall c saved,
    decode_members (ms1 ++ ms2) c saved
    = decode_members ms2 (fst (decode_members ms1 c saved))
        (snd (decode_members ms1 c saved)).
Proof.
  induction ms1 as [|[k v] ms1 IH]; intros c saved; [reflexivity|].
  cbn [app decode_members].
  destruct (field_of_key k) as [f|]; [|apply IH].
  destruct (store_field f v c) as [c' e]. apply IH.
Qed.

Lemma decode_members_filter (ms : list (string * json)) :
  forall c saved,
    decode_members (List.filter selects_field ms) c saved
    = decode_members ms c saved.
Proof.
  induction ms as [|[k v] ms IH]; intros c saved; [reflexivity|].
  cbn [List.filter]. unfold selects_field at 1. cbn [fst].
  destruct (field_of_key k) as [f|] eqn:E; cbn [decode_members]; rewrite E.
  - destruct (store_field f v c) as [c' e]. apply IH.
  - apply IH.
Qed.

Lemma decode_members_first_error (ms : list (string * json)) :
  forall c saved,
    snd (decode_members ms c saved)
    = match saved with
      | Some e => Some e
      | None => first_error ms
      end.
Proof.
  induction ms as [|[k v] ms IH]; intros c saved;
    cbn [decode_members first_error].
  - now destruct saved.
  - unfold member_error. cbn [fst snd].
    destruct (field_of_key k) as [f|].
    + destruct (store_field f v c) as [c' e] eqn:E. rewrite IH.
      destruct saved as [s|]; [reflexivity|].
      destruct v; cbn in E; injection E as <- <-; reflexivity.
    + apply IH.
Qed.

(** Case folding of keys. *)
Lemma code_byte_of (n : N) : (n < 256)%N -> code (byte_of n) = n.
Proof. apply N_ascii_embedding. Qed.

Lemma byte_of_code (c : ascii) : byte_of (code c) = c.
Proof. apply ascii_N_embedding. Qed.

Lemma upper_idem (c : ascii) : upper (upper c) = upper c.
Proof.
  assert (upper c = if ((97 <=? code c) && (code c <=? 122))%N
                    then byte_of (code c - 32) else c) as Hu by reflexivity.
  destruct ((97 <=? code c) && (code c <=? 122))%N eqn:E; rewrite Hu.
  - apply andb_true_iff in E as [E1 E2]. apply N.leb_le in E1, E2.
    unfold upper, between.
    rewrite code_byte_of by lia.
    destruct (N.leb_spec 97 (code c - 32)) as [H|H]; [lia|reflexivity].
  - unfold upper, between. now rewrite E.
Qed.

Lemma upper_ascii (c : ascii) :
  (code (upper c) <? 128)%N = (code c <? 128)%N.
Proof.
  unfold upper, between.
  destruct ((97 <=? code c) && (code c <=? 122))%N eqn:E; [|reflexivity].
  apply andb_true_iff in E as [E1 E2]. apply N.leb_le in E1, E2.
  rewrite code_byte_of by lia.
  destruct (N.ltb_spec (code c - 32) 128), (N.ltb_spec (code c) 128);
    try reflexivity; lia.
Qed.

Lemma upper_lower (c : ascii) : upper (lower c) = upper c.
Proof.
  unfold lower, between.
  destruct ((65 <=? code c) && (code c <=? 90))%N eqn:E; [|reflexivity].
  apply andb_true_iff in E as [E1 E2]. apply N.leb_le in E1, E2.
  unfold upper, between.
  assert (code (byte_of (code c + 32)) = (code c + 32)%N) as Hc
    by (apply code_byte_of; lia).
  rewrite Hc.
  destruct (N.leb_spec 97 (code c + 32)) as [_|H]; [|lia].
  destruct (N.leb_spec (code c + 32) 122) as [_|H]; [|lia].
  destruct (N.leb_spec 97 (code c)) as [H|_]; [lia|].
  cbn [andb]. replace (code c + 32 - 32)%N with (code c) by lia.
  apply byte_of_code.
Qed.

Lemma lower_ascii (c : ascii) :
  (code (lower c) <? 128)%N = (code c <? 128)%N.
Proof.
  unfold lower, between.
  destruct ((65 <=? code c) && (code c <=? 90))%N eqn:E; [|reflexivity].
  apply andb_true_iff in E as [E1 E2]. apply N.leb_le in E1, E2.
  assert (code (byte_of (code c + 32)) = (code c + 32)%N) as ->
    by (apply code_byte_of; lia).
  destruct (N.ltb_spec (code c + 32) 128), (N.ltb_spec (code c) 128);
    try reflexivity; lia.
Qed.

Lemma upper_high (c : ascii) : (code c <? 128)%N = false -> upper c = c.
Proof.
  intros H. apply N.ltb_ge in H. unfold upper, between.
  destruct (N.leb_spec (code c) 122) as [H'|_]; [lia|].
  now rewrite andb_false_r.
Qed.

Lemma lower_high (c : ascii) : (code c <? 128)%N = false -> lower c = c.
Proof.
  intros H. apply N.ltb_ge in H. unfold lower, between.
  destruct (N.leb_spec (code c) 90) as [H'|_]; [lia|].
  now rewrite andb_false_r.
Qed.

(** [foldName] at a byte outside ASCII. *)
Lemma foldName_high (c : ascii) (rest : string) :
  (code c <? 128)%N = false ->
  foldName (String c rest)
  = match rest with
    | String c1 rest1 =>
        if ((code c =? 197) && (code c1 =? 191))%N
        then String "S" (foldName rest1)
        else
          match rest1 with
          | String c2 rest2 =>
              if ((code c =? 226) && (code c1 =? 132) && (code c2 =? 170))%N
              then String "K" (foldName rest2)
              else String c (foldName rest)
          | EmptyString => String c (foldName rest)
          end
    | EmptyString => String c (foldName rest)
    end.
Proof.
  intros H. destruct rest as [|c1 [|c2 rest2]]; cbn [foldName];
    rewrite H; reflexivity.
Qed.

Section Fold.

(** A change of bytes that keeps the bytes outside ASCII and the upper
    case of the ASCII ones. *)
Variable g : ascii -> ascii.
Hypothesis g_ascii : forall c, (code (g c) <? 128)%N = (code c <? 128)%N.
Hypothesis g_upper : forall c, (code c <? 128)%N = true ->
                               upper (g c) = upper c.
Hypothesis g_high : forall c, (code c <? 128)%N = false -> g c = c.

Lemma g_eqb (c : ascii) (n : N) :
  (128 <= n)%N -> (code (g c) =? n)%N = (code c =? n)%N.
Proof.
  intros Hn. destruct (code c <? 128)%N eqn:Ec.
  - pose proof (g_ascii c) as Hg. rewrite Ec in Hg.
    apply N.ltb_lt in Ec, Hg.
    destruct (N.eqb_spec (code (g c)) n), (N.eqb_spec (code c) n);
      try reflexivity; lia.
  - now rewrite (g_high c Ec).
Qed.

Lemma foldName_map_bounded (n : nat) :
  forall key, String.length key <= n ->
              foldName (map_bytes g key) = foldName key.
Proof.
  induction n as [|n IH]; intros key Hl.
  - destruct key; [reflexivity | cbn in Hl; lia].
  - destruct key as [|c rest]; [reflexivity|].
    cbn [String.length] in Hl.
    assert (foldName (map_bytes g rest) = foldName rest) as Hr
      by (apply IH; lia).
    cbn [map_bytes].
    destruct (code c <? 128)%N eqn:Ec.
    + cbn [foldName]. rewrite g_ascii, Ec, (g_upper c Ec). now f_equal.
    + rewrite (g_high c Ec), !(foldName_high _ _ Ec).
      destruct rest as [|c1 rest1]; [reflexivity|].
      cbn [map_bytes] in *. cbn [String.length] in Hl.
      rewrite (g_eqb c1 191), (g_eqb c1 132) by lia.
      destruct ((code c =? 197) && (code c1 =? 191))%N.
      { f_equal. apply IH. lia. }
      destruct rest1 as [|c2 rest2].
      { cbn [map_bytes] in *. now f_equal. }
      cbn [map_bytes] in *. cbn [String.length] in Hl.
      rewrite (g_eqb c2 170) by lia.
      destruct ((code c =? 226) && (code c1 =? 132) && (code c2 =? 170))%N.
      { f_equal. apply IH. lia. }
      now f_equal.
Qed.

Lemma foldName_map (key : string) :
  foldName (map_bytes g key) = foldName key.
Proof. apply (foldName_map_bounded (String.length key)). lia. Qed.

End Fold.

(** The field a key selects, read off its folded form. *)
Lemma field_of_key_folded (key : string) :
  field_of_key key
  = if String.eqb (foldName key) "NAME" then Some FieldName
    else if String.eqb (foldName key) "KIND" then Some FieldKind
    else None.
Proof.
  unfold field_of_key. cbn [json_name].
  destruct (String.eqb_spec key "name") as [->|_]; [reflexivity|].
  destruct (String.eqb_spec key "kind") as [->|_]; reflexivity.
Qed.

End MemberFacts.

(** X11.  Members the record has no field for are ignored: decoding a
    response object gives the record and the error that decoding gives
    on the members whose key matches [name] or [kind] alone. *)
Theorem X11_other_members_ignored (content : string)
    (ms : list (string * json)) (c : Character) :
  parse content = Some (JObject ms) ->
  Unmarshal content c
  = decode_value (JObject (List.filter selects_field ms)) c.
Proof.
  intros H. unfold Unmarshal. rewrite H. cbn [decode_value].
  now rewrite MemberFacts.decode_members_filter.
Qed.

Lemma X11_other_members_ignored_witness :
  Unmarshal with_level zero
  = decode_value
      (JObject (List.filter selects_field
                  [("name", JString "X"); ("level", JNumber "3");
                   ("kind", JString "Y")])) zero.
Proof.
  apply (X11_other_members_ignored with_level
           [("name", JString "X"); ("level", JNumber "3");
            ("kind", JString "Y")] zero).
  vm_compute. reflexivity.
Defined.

(** X12.  When several members match the same field the last one
    decides: a field ends with the string of a member whose key matches
    it when no later member matches it, whatever came before. *)
Theorem X12_last_member_wins (f : field) (ms1 ms2 : list (string * json))
    (k s : string) (c : Character) :
  field_of_key k = Some f ->
  selected f ms2 = [] ->
  get_field f (fst (decode_value (JObject (ms1 ++ (k, JString s) :: ms2)) c))
  = s.
Proof.
  intros Hk Hs. cbn [decode_value].
  rewrite MemberFacts.decode_members_app. cbn [decode_members].
  rewrite Hk. cbn [store_field].
  rewrite decode_members_untouched by exact Hs.
  apply get_set_same.
Qed.

Lemma X12_last_member_wins_witness :
  get_field FieldName
    (fst (decode_value
            (JObject ([("name", JString "first")]
                      ++ ("NAME", JString "second")
                         :: [("kind", JString "Elf")])) zero))
  = "second".
Proof.
  apply (X12_last_member_wins FieldName [("name", JString "first")]
           [("kind", JString "Elf")] "NAME" "second" zero);
    vm_compute; reflexivity.
Defined.

(** X13.  Keys are matched without regard to ASCII case: the field a
    key selects is decided by its folded form alone, and putting the
    ASCII letters of a key in upper case, or in lower case, never
    changes the field it selects. *)
Theorem X13_keys_fold_case (key : string) :
  field_of_key (to_upper key) = field_of_key key
  /\ field_of_key (to_lower key) = field_of_key key
  /\ forall f,
       field_of_key key = Some f <-> foldName key = foldName (json_name f).
Proof.
  assert (foldName (to_upper key) = foldName key) as Hu.
  { apply MemberFacts.foldName_map.
    - apply MemberFacts.upper_ascii.
    - intros c _. apply MemberFacts.upper_idem.
    - apply MemberFacts.upper_high. }
  assert (foldName (to_lower key) = foldName key) as Hl.
  { apply MemberFacts.foldName_map.
    - apply MemberFacts.lower_ascii.
    - intros c _. apply MemberFacts.upper_lower.
    - apply MemberFacts.lower_high. }
  rewrite !MemberFacts.field_of_key_folded, Hu, Hl.
  split; [reflexivity|]. split; [reflexivity|].
  intros f.
  destruct (String.eqb_spec (foldName key) "NAME") as [E|E].
  - rewrite E. destruct f; split; intros H; try reflexivity; discriminate.
  - destruct (String.eqb_spec (foldName key) "KIND") as [E'|E'].
    + rewrite E'. destruct f; split; intros H; try reflexivity; discriminate.
    + destruct f; split; intros H; try discriminate; contradiction.
Qed.

(** X14.  The error of a response object is that of its first member,
    in the order of the text, whose key matches a field and whose value
    is neither a string nor [null]: it names the JSON type met and the
    field; later members are still decoded but their errors are not
    reported. *)
Theorem X14_first_error (content : string) (ms : list (string * json))
    (c : Character) :
  parse content = Some (JObject ms) ->
  snd (Unmarshal content c) = first_error ms.
Proof.
  intros H. unfold Unmarshal. rewrite H. cbn [decode_value].
  apply (MemberFacts.decode_members_first_error ms c None).
Qed.

Lemma X14_first_error_witness :
  snd (Unmarshal two_wrong zero)
  = first_error [("kind", JNumber "5"); ("name", JArray [])].
Proof.
  apply (X14_first_error two_wrong
           [("kind", JNumber "5"); ("name", JArray [])] zero).
  vm_compute. reflexivity.
Defined.

Module RowFacts.

Lemma add_rows_app (cs1 cs2 : list Character) :
  forall idx acc,
    add_rows idx (cs1 ++ cs2) acc
    = match add_rows idx cs1 acc with
      | Some t => add_rows (idx + Z.of_nat (length cs1)) cs2 t
      | None => None
      end.
Proof.
  induction cs1 as [|c cs1 IH]; intros idx acc.
  - cbn [app add_rows length Z.of_nat]. now rewrite Z.add_0_r.
  - cbn [app add_rows]. rewrite Sprintf_row, IH.
    destruct (add_rows (idx + 1) cs1 _) as [t|]; [|reflexivity].
    f_equal. cbn [length]. lia.
Qed.

Lemma rows_text_app (cs1 cs2 : list Character) :
  forall idx,
    rows_text idx (cs1 ++ cs2)
    = rows_text idx cs1 +:+ rows_text (idx + Z.of_nat (length cs1)) cs2.
Proof.
  induction cs1 as [|c cs1 IH]; intros idx.
  - cbn [app rows_text length Z.of_nat String.append].
    now rewrite Z.add_0_r.
  - cbn [app rows_text]. rewrite IH.
    rewrite (append_assoc (data_row (idx + 1) (Name c) (Kind c))).
    cbn [String.append].
    replace (idx + 1 + Z.of_nat (length cs1))%Z
      with (idx + Z.of_nat (length (c :: cs1)))%Z by (cbn [length]; lia).
    reflexivity.
Qed.

Lemma lines_app_ended (a b : string) :
  lines ((a +:+ nl) +:+ b) = lines (a +:+ nl) ++ lines b.
Proof.
  induction a as [|c a IH].
  - reflexivity.
  - cbn [String.append lines]. destruct (is_LF c).
    + now rewrite IH.
    + rewrite IH.
      pose proof (length_lines_app_nl a EmptyString) as Hl.
      fold nl in Hl.
      destruct (lines (a +:+ nl)) as [|l ls]; [cbn in Hl; lia|].
      reflexivity.
Qed.

Lemma rows_text_ended (cs : list Character) :
  forall idx, cs <> [] -> exists a, rows_text idx cs = a +:+ nl.
Proof.
  induction cs as [|c cs IH]; intros idx H; [contradiction|].
  cbn [rows_text]. destruct cs as [|c' cs].
  - exists (data_row (idx + 1) (Name c) (Kind c)). reflexivity.
  - destruct (IH (idx + 1)%Z ltac:(discriminate)) as [a Ha].
    rewrite Ha.
    exists (data_row (idx + 1) (Name c) (Kind c) +:+ String Bytes.LF a).
    rewrite append_assoc. reflexivity.
Qed.

Lemma table_text_ended (cs : list Character) :
  exists a, table_text cs = a +:+ nl.
Proof.
  unfold table_text. destruct cs as [|c cs].
  - exists (header_line +:+ String Bytes.LF separator_line).
    rewrite append_assoc. reflexivity.
  - destruct (rows_text_ended (c :: cs) 0 ltac:(discriminate)) as [a Ha].
    rewrite Ha.
    exists (header_line
            +:+ String Bytes.LF (separator_line +:+ String Bytes.LF a)).
    rewrite append_assoc. cbn [String.append].
    rewrite append_assoc. reflexivity.
Qed.

Lemma table_text_app (cs1 cs2 : list Character) :
  table_text (cs1 ++ cs2)
  = table_text cs1 +:+ rows_text (Z.of_nat (length cs1)) cs2.
Proof.
  unfold table_text. rewrite rows_text_app, Z.add_0_l.
  rewrite append_assoc. cbn [String.append].
  rewrite append_assoc. reflexivity.
Qed.

Lemma table_lines_app (cs1 cs2 : list Character) :
  lines (table_text (cs1 ++ cs2))
  = lines (table_text cs1) ++ lines (rows_text (Z.of_nat (length cs1)) cs2).
Proof.
  rewrite table_text_app.
  destruct (table_text_ended cs1) as [a ->].
  apply lines_app_ended.
Qed.

End RowFacts.

(** X15.  The table is built one record at a time: the rows of a batch
    put after another continue the numbering where it stopped, and the
    table of a batch with one more record is the table of the batch
    followed by the row of that record, with the next index; earlier
    rows are left as they were. *)
Theorem X15_rows_append (cs : list Character) (c : Character) :
  (forall idx cs2 acc,
      add_rows idx (cs ++ cs2) acc
      = match add_rows idx cs acc with
        | Some t => add_rows (idx + Z.of_nat (length cs)) cs2 t
        | None => None
        end)
  /\ markdown_table (cs ++ [c])
     = option_map
         (fun t => t +:+ data_row (Z.of_nat (length cs) + 1) (Name c) (Kind c)
                   +:+ nl)
         (markdown_table cs).
Proof.
  split; [intros; apply RowFacts.add_rows_app|].
  unfold markdown_table. rewrite RowFacts.add_rows_app.
  destruct (add_rows 0 cs _) as [t|]; [|reflexivity].
  cbn [add_rows option_map]. rewrite Sprintf_row. now rewrite Z.add_0_l.
Qed.

(** X16.  The first two lines of the file are the header and the
    separator whatever the records hold, and a newline in a record
    disturbs no earlier row: when the records up to the [i]-th hold no
    newline, line [i + 2] of the file (from 0) is the row of the [i]-th
    record with index [i + 1]. *)
Theorem X16_rows_before_a_newline (cs : list Character) :
  lines (table_text cs) !! 0 = Some header_line
  /\ lines (table_text cs) !! 1 = Some separator_line
  /\ forall i c,
       cs !! i = Some c ->
       field_newlines (take (S i) cs) = 0 ->
       lines (table_text cs) !! (i + 2)
       = Some (data_row (Z.of_nat i + 1) (Name c) (Kind c)).
Proof.
  split; [|split].
  - change cs with ([] ++ cs). now rewrite RowFacts.table_lines_app.
  - change cs with ([] ++ cs). now rewrite RowFacts.table_lines_app.
  - intros i c Hi Hn.
    rewrite <- (take_drop (S i) cs) at 1.
    rewrite RowFacts.table_lines_app, (table_text_lines _ Hn).
    assert (take (S i) cs !! i = Some c) as Ht
      by (rewrite lookup_take_lt by lia; exact Hi).
    rewrite lookup_app_l.
    + replace (i + 2) with (S (S i)) by lia. cbn [lookup list_lookup].
      change (row_lines 0 (take (S i) cs) !! i
              = Some (data_row (Z.of_nat i + 1) (Name c) (Kind c))).
      rewrite (row_lines_lookup _ 0 i c Ht). do 2 f_equal.
    + cbn [length]. rewrite row_lines_length.
      apply lookup_lt_Some in Ht. lia.
Qed.

(** X17.  The file does not determine the batch: names and kinds are
    not escaped, so two different batches can give the same table. *)
Theorem X17_table_not_injective :
  ~ (forall cs1 cs2 : list Character,
        markdown_table cs1 = markdown_table cs2 -> cs1 = cs2).
Proof.
  intros H.
  assert (markdown_table [bar_in_name] = markdown_table [bar_in_kind]) as E
    by (vm_compute; reflexivity).
  apply H in E. discriminate.
Qed.

Module BlankFacts.

Import Bytes Json GoJson.








Lemma length_append (a b : string) :
  String.length (a +:+ b) = String.length a + String.length b.
Proof. induction a as [|c a IH]; cbn; [reflexivity|]. now rewrite IH. Qed.

Lemma append_inj_r (s : string) :
  forall a b, a +:+ s = b +:+ s -> a = b.
Proof.
  induction a as [|c a IH]; intros b H.
  - destruct b as [|d b]; [reflexivity|].
    apply (f_equal String.length) in H.
    cbn [String.append String.length] in H.
    rewrite length_append in H. lia.
  - destruct b as [|d b].
    + apply (f_equal String.length) in H.
      cbn [String.append String.length] in H.
      rewrite length_append in H. lia.
    + cbn [String.append] in H. injection H as -> H.
      f_equal. now apply IH.
Qed.

End BlankFacts.



(** X19.  The file written is named after the selected kind alone, and
    two different kinds never give the same file name. *)
Theorem X19_file_names_differ (kind1 kind2 : string) :
  kind1 <> kind2 -> file_name kind1 <> file_name kind2.
Proof.
  unfold file_name. intros Hne H. apply Hne.
  apply (String.app_inj "./characters.") in H.
  now apply (BlankFacts.append_inj_r ".md").
Qed.

Lemma X19_file_names_differ_witness : file_name "Elf" <> file_name "Dwarf".
Proof.
  apply (X19_file_names_differ "Elf" "Dwarf"). discriminate.
Defined.

(** X20.  The order of what a run does when the client is built: it
    prints its banner; then, for each turn that gives a record, it
    issues the request and prints the record before anything else
    happens; then either a failing turn ends it, with its request and
    the fatal message, before fifteen records were made, or the
    fifteen records are written, once, and the run ends there or with
    the fatal message of the write. *)
Theorem X20_trace_shape (p : Profile) (selected_kind : string) (w : World) :
  client_error w = None ->
  exists cs tail,
    snd (run (main_of p selected_kind) w)
    = EvStdout (Sprintln ["🌍"; default EmptyString (environ w !! "OLLAMA_HOST");
                          "📕"; default EmptyString (environ w !! "LLM")])
      :: flat_map
           (fun c => [EvChat (request_of p selected_kind w);
                      EvStdout (record_line c)]) cs
      ++ tail
    /\ trace_end (request_of p selected_kind w) selected_kind cs tail
    /\ cs = records p selected_kind w.
Proof.
  intros Hc. rewrite main_spec, Hc. cbv zeta. unfold records.
  destruct (batch w (request_of p selected_kind w) 0 batch_size)
    as [cs e] eqn:Eb.
  assert (flat_map (turn_events (request_of p selected_kind w)) cs
          = flat_map
              (fun c => [EvChat (request_of p selected_kind w);
                         EvStdout (record_line c)]) cs) as Hf.
  { induction cs as [|c cs IH] in |- *; [reflexivity|].
    cbn [flat_map]. rewrite IH. unfold turn_events, record_line.
    now rewrite Sprintln_pair. }
  pose proof (batch_records_bound _ _ _ _ _ _ Eb) as Hbound.
  destruct e as [e|]; cbn [fst snd].
  - exists cs, [EvChat (request_of p selected_kind w); EvFatal e].
    split; [|split; [|reflexivity]].
    + unfold batch_events. now rewrite Hf.
    + constructor. lia.
  - pose proof (batch_length _ _ _ _ _ Eb) as Hl.
    destruct (write_file w _ _ _) as [m|]; cbn [snd].
    + exists cs, [write_event selected_kind cs; EvFatal (ExternalError m)].
      split; [|split; [|reflexivity]].
      * unfold batch_events. rewrite Hf, app_nil_r.
        now rewrite <- !app_assoc.
      * now constructor.
    + exists cs, [write_event selected_kind cs].
      split; [|split; [|reflexivity]].
      * unfold batch_events. now rewrite Hf, app_nil_r.
      * now constructor.
Qed.

Lemma X20_trace_shape_witness :
  exists cs tail,
    snd (run (main_of Minimal kind) third_malformed)
    = EvStdout (Sprintln ["🌍";
                          default EmptyString
                            (environ third_malformed !! "OLLAMA_HOST");
                          "📕";
                          default EmptyString
                            (environ third_malformed !! "LLM")])
      :: flat_map
           (fun c => [EvChat (request_of Minimal kind third_malformed);
                      EvStdout (record_line c)]) cs
      ++ tail
    /\ trace_end (request_of Minimal kind third_malformed) kind cs tail
    /\ cs = records Minimal kind third_malformed.
Proof.
  apply (X20_trace_shape Minimal kind third_malformed). reflexivity.
Defined.

(** X21.  The loop only appends: run from any list of records, [n]
    turns that all give a record return that list followed by the [n]
    new records, in the order of the turns, and do to the world what
    they do when run from the empty list. *)
Theorem X21_loop_appends (n : nat) (req : ChatRequest) (w : World)
    (acc cs : list Character) (tr tr' : list Event) :
  generate n req acc w tr = (Done cs, tr') ->
  exists new,
    cs = acc ++ new
    /\ length new = n
    /\ generate n req [] w tr = (Done new, tr')
    /\ forall m c, new !! m = Some c ->
                   answer w req (chat_calls tr + m) = inr c.
Proof.
  rewrite !generate_spec.
  destruct (batch w req (chat_calls tr) n) as [new [e|]] eqn:Eb;
    [discriminate|].
  intros H. injection H as <- <-.
  exists new. split; [reflexivity|].
  split; [apply (batch_length _ _ _ _ _ Eb)|].
  split; [reflexivity|].
  intros m c Hm. apply (batch_answers _ _ _ _ _ _ Eb m c Hm).
Qed.

Lemma X21_loop_appends_witness :
  exists new,
    [karl; elara] = [karl] ++ new
    /\ length new = 1
    /\ generate 1 (request_of Minimal kind elara_world) [] elara_world []
       = (Done new, turn_events (request_of Minimal kind elara_world) elara)
    /\ forall m c, new !! m = Some c ->
                   answer elara_world (request_of Minimal kind elara_world)
                     (chat_calls [] + m) = inr c.
Proof.
  apply (X21_loop_appends 1 (request_of Minimal kind elara_world) elara_world
           [karl] [karl; elara] []
           (turn_events (request_of Minimal kind elara_world) elara)).
  vm_compute. reflexivity.
Defined.
